(** * AgenticSqlAgent backend: a shallow embedding and its properties

    The development follows the four source files of [backend/]:
    - [database.py]: [init_database] (schema creation and seeding) and
      [get_database_path] (URL to file path);
    - [agent.py]: [create_sql_agent_executor] (the agent factory, over the
      LangChain entry points it calls) and [query_database] (the try/except
      around [agent.invoke]);
    - [main.py]: [startup_event], [health], [debug_env] and [execute_query]
      (the POST /query handler);
    - [config.py]: the settings and their defaults.

    Python values are modelled as the interpreter has them: a [str] is a
    sequence of Unicode code points, a [float] is an IEEE 754 binary64 number
    (the Standard Library's [spec_float] with [prec = 53], [emax = 1024]), an
    [int] is a [Z].  Exceptions are explicit results, the random module is a
    state monad over an entropy tape, and the SQLite file is a record of
    tables. *)

From Stdlib Require Import ZArith NArith PArith List String Ascii Bool Lia FinFun.
From Stdlib Require Import Floats.SpecFloat.
Import ListNotations.
Open Scope Z_scope.

(** ** Python strings and exceptions *)

Module Py.

(** A [str] is a sequence of code points. *)
Definition str := list N.

(** A literal of the source, character by character. *)
Definition lit (s : string) : str := map N_of_ascii (list_ascii_of_string s).

(** [a == b] *)
Fixpoint str_eqb (a b : str) : bool :=
  match a, b with
  | [], [] => true
  | x :: a', y :: b' => N.eqb x y && str_eqb a' b'
  | _, _ => false
  end.

(** [s.startswith(prefix)] *)
Fixpoint startswith (s prefix : str) {struct prefix} : bool :=
  match prefix with
  | [] => true
  | p :: prefix' =>
      match s with
      | [] => false
      | c :: s' => N.eqb c p && startswith s' prefix'
      end
  end.

(** [s.replace(old, new)] for a non-empty [old]: the occurrences of [old]
    are found from left to right and do not overlap.  [skip] counts the
    characters of a matched occurrence that are still to be passed over. *)
Fixpoint replace_from (skip : nat) (s old new : str) : str :=
  match s with
  | [] => []
  | c :: s' =>
      match skip with
      | S k => replace_from k s' old new
      | O =>
          if startswith s old
          then new ++ replace_from (List.length old - 1) s' old new
          else c :: replace_from 0 s' old new
      end
  end.

(** [s.replace(old, new)]; with an empty [old], Python puts [new] before
    every character and at the end. *)
Definition replace (s old new : str) : str :=
  match old with
  | [] => new ++ flat_map (fun c => c :: new) s
  | _ :: _ => replace_from 0 s old new
  end.

(** [c.isspace()] for one code point: the ASCII whitespace table of the
    interpreter and the Unicode characters of type WS, B or S. *)
Definition isspace (c : N) : bool :=
  ((9 <=? c) && (c <=? 13) || (28 <=? c) && (c <=? 32)
   || (c =? 133) || (c =? 160) || (c =? 5760)
   || (8192 <=? c) && (c <=? 8202)
   || (c =? 8232) || (c =? 8233) || (c =? 8239) || (c =? 8287)
   || (c =? 12288))%N.

Fixpoint lstrip (s : str) : str :=
  match s with
  | [] => []
  | c :: s' => if isspace c then lstrip s' else s
  end.

Definition rstrip (s : str) : str := rev (lstrip (rev s)).

(** [s.strip()] *)
Definition strip (s : str) : str := rstrip (lstrip s).

(** Truth value of a string: [not s] holds exactly for the empty string. *)
Definition truthy (s : str) : bool :=
  match s with [] => false | _ :: _ => true end.

(** What [str(e)] gives: a text, or the exception that the object's
    [__str__] raises (a [TypeError] when it returns something that is not a
    string), an instance of [Exception] or not. *)
Inductive str_result (E : Type) : Type :=
| Str (s : str)
| StrRaise (e : E)
| StrRaiseBase (e : E).
Arguments Str {E} s.
Arguments StrRaise {E} e.
Arguments StrRaiseBase {E} e.

(** An exception object: its class name and what [str(e)] gives. *)
#[warnings="-register-all"]
Inductive exception : Type := { exc_class : str; exc_str : str_result exception }.

(** The outcome of a call.  [Raise] carries an instance of [Exception];
    [RaiseBase] carries an instance of [BaseException] that is not an
    [Exception] ([KeyboardInterrupt], [SystemExit], [GeneratorExit]), which
    an [except Exception] clause does not catch. *)
Inductive outcome (A : Type) : Type :=
| Return (a : A)
| Raise (e : exception)
| RaiseBase (e : exception).
Arguments Return {A} a.
Arguments Raise {A} e.
Arguments RaiseBase {A} e.

End Py.

(** ** Python floats: IEEE 754 binary64 *)

Module Float.

Definition prec : Z := 53.
Definition emax : Z := 1024.

Definition float := spec_float.

(** [float(z)] for an integer, and the float [m * 2^e]. *)
Definition of_Z (z : Z) : float := binary_normalize prec emax z 0 false.
Definition ldexp (m e : Z) : float := binary_normalize prec emax m e false.

Definition add : float -> float -> float := SFadd prec emax.
Definition sub : float -> float -> float := SFsub prec emax.
Definition mul : float -> float -> float := SFmul prec emax.
Definition div : float -> float -> float := SFdiv prec emax.
Definition leb : float -> float -> bool := SFleb.
Definition eqb : float -> float -> bool := SFeqb.

(** The quotient [n / d] of two naturals rounded to the nearest integer,
    a tie going to the even one. *)
Definition div_half_even (n d : Z) : Z :=
  let q := n / d in
  match 2 * (n mod d) ?= d with
  | Lt => q
  | Gt => q + 1
  | Eq => if Z.even q then q else q + 1
  end.

(** The float nearest to the rational [k / p] (a tie to the even mantissa),
    with sign [s]: what the interpreter's string-to-double conversion
    returns for the decimal [k / 10^n]. *)
Definition of_ratio (s : bool) (k p : Z) : float :=
  match k with
  | Z0 => S754_zero s
  | _ =>
      let '(q, e, l) := SFdiv_core_binary prec emax k 0 p 0 in
      binary_round_aux prec emax s q e l
  end.

(** [round(x, ndigits)] for [ndigits >= 0]: the exact value of [x] is
    rounded to [ndigits] decimals (half to even) as a decimal string, and the
    string is converted back to the nearest float.  Infinities and NaN round
    to themselves. *)
Definition round (x : float) (ndigits : N) : float :=
  match x with
  | S754_finite s m e =>
      let p := 10 ^ Z.of_N ndigits in
      let k :=
        match e with
        | Zneg sh => div_half_even (Zpos m * p) (2 ^ Zpos sh)
        | _ => Zpos m * p * 2 ^ e
        end in
      of_ratio s k p
  | _ => x
  end.

End Float.

(** ** config.py *)

Module Config.
Import Py.

(** The fields of [Settings]; an [Optional[str]] field is an [option]. *)
Record Settings : Type := {
  database_url : str;
  llm_provider : str;
  openai_api_key : option str;
  openai_base_url : option str;
  openai_model : str;
  openai_temperature : Float.float;
  api_host : str;
  api_port : Z;
  cors_origins : list str
}.

(** The class defaults: the settings when neither the environment nor the
    [.env] file sets a field. *)
Definition defaults : Settings :=
  {| database_url := lit "sqlite:///./sales.db";
     llm_provider := lit "openai";
     openai_api_key := None;
     openai_base_url := None;
     openai_model := lit "gpt-4o-mini";
     openai_temperature := Float.of_Z 0;
     api_host := lit "0.0.0.0";
     api_port := 8000;
     cors_origins := [lit "http://localhost:3000"; lit "http://localhost:5173"] |}.

(** Truth value of an [Optional[str]]: [None] and the empty string are
    false. *)
Definition truthy_opt (o : option str) : bool :=
  match o with
  | Some s => truthy s
  | None => false
  end.

(** [a or b] for an [Optional[str]] [a]: [a] when it is true, [b] otherwise;
    [b] is another [Optional[str]], or a [str]. *)
Definition or_opt (a b : option str) : option str :=
  if truthy_opt a then a else b.

Definition or_str (a : option str) (b : str) : str :=
  match a with
  | Some s => if truthy s then s else b
  | None => b
  end.

(** [os.environ], and [os.getenv(key)] and [os.getenv(key, default)]. *)
Definition environ : Type := str -> option str.

Definition getenv (env : environ) (key : str) : option str := env key.

Definition getenv_default (env : environ) (key default : str) : str :=
  match env key with
  | Some v => v
  | None => default
  end.

End Config.

(** ** The random module *)

Module Random.
Import Py.

(** The generator's state is an entropy tape: every basic draw
    ([_randbelow], [random]) reads the head of the tape and moves on.  All
    tapes are possible, so a property proved for every tape holds for every
    run of the generator. *)
Definition rng := nat -> N.

(** Computations that draw random numbers and may raise. *)
Definition M (A : Type) : Type := rng -> outcome (A * rng).

Definition ret {A : Type} (a : A) : M A := fun g => Return (a, g).

Definition bind {A B : Type} (m : M A) (f : A -> M B) : M B :=
  fun g =>
    match m g with
    | Return (a, g') => f a g'
    | Raise e => Raise e
    | RaiseBase e => RaiseBase e
    end.

Definition raise {A : Type} (e : exception) : M A := fun _ => Raise e.

(** A call that draws nothing. *)
Definition lift {A : Type} (o : outcome A) : M A :=
  fun g =>
    match o with
    | Return a => Return (a, g)
    | Raise e => Raise e
    | RaiseBase e => RaiseBase e
    end.

Declare Scope rand_scope.
Delimit Scope rand_scope with rand.
Notation "x <- m ;; k" := (bind m (fun x => k))
  (at level 61, m at next level, right associativity) : rand_scope.
Open Scope rand_scope.

Definition next : M N := fun g => Return (g 0%nat, fun n => g (S n)).

Definition ValueError : exception :=
  {| exc_class := lit "ValueError"; exc_str := Str (lit "empty range") |}.
Definition IndexError : exception :=
  {| exc_class := lit "IndexError";
     exc_str := Str (lit "Cannot choose from an empty sequence") |}.

(** [_randbelow(n)]: an integer in [0, n). *)
Definition randbelow (n : Z) : M Z :=
  x <- next ;; ret (Z.of_N x mod n).

(** [randint(a, b)]: an integer [N] with [a <= N <= b]. *)
Definition randint (a b : Z) : M Z :=
  if b - a + 1 <=? 0 then raise ValueError
  else r <- randbelow (b - a + 1) ;; ret (a + r).

(** [choice(seq)] *)
Definition choice {A : Type} (seq : list A) : M A :=
  match seq with
  | [] => raise IndexError
  | d :: _ =>
      i <- randbelow (Z.of_nat (List.length seq)) ;;
      ret (nth (Z.to_nat i) seq d)
  end.

(** [random()]: a float [k / 2^53] with [0 <= k < 2^53]. *)
Definition random : M Float.float :=
  x <- next ;; ret (Float.ldexp (Z.of_N x mod 2 ^ 53) (-53)).

(** [uniform(a, b)] is [a + (b - a) * random()]. *)
Definition uniform (a b : Float.float) : M Float.float :=
  r <- random ;; ret (Float.add a (Float.mul (Float.sub b a) r)).

(** [for x in xs: s = body(x, s)] *)
Fixpoint for_each {A S : Type} (xs : list A) (body : A -> S -> M S) (s : S) : M S :=
  match xs with
  | [] => ret s
  | x :: xs' => s' <- body x s ;; for_each xs' body s'
  end.

(** [range(n)] *)
Definition range (n : Z) : list Z := map Z.of_nat (seq 0 (Z.to_nat n)).

End Random.

(** ** database.py *)

Module Database.
Import Py Random.

(** *** The SQLite file *)

(** A table whose key is [INTEGER PRIMARY KEY AUTOINCREMENT]: its rows in
    insertion order and the largest rowid it ever held (its line of
    [sqlite_sequence]). *)
Record table (R : Type) : Type := { rows : list R; seq : Z }.
Arguments rows {R} t.
Arguments seq {R} t.

Definition max_rowid : Z := 9223372036854775807.

Definition OperationalError : exception :=
  {| exc_class := lit "sqlite3.OperationalError";
     exc_str := Str (lit "database or disk is full") |}.
Definition IntegrityError : exception :=
  {| exc_class := lit "sqlite3.IntegrityError";
     exc_str := Str (lit "UNIQUE constraint failed: sales_people.email") |}.

(** The rowid an AUTOINCREMENT table gives to its next row: one more than
    the largest rowid ever used. *)
Definition next_rowid {R : Type} (id : R -> Z) (t : table R) : Z :=
  Z.max (seq t) (fold_right Z.max 0 (map id (rows t))) + 1.

(** [INSERT] of one row, built from its rowid; once the largest rowid has
    been used the insert fails (SQLITE_FULL). *)
Definition insert {R : Type} (id : R -> Z) (mk : Z -> R) (t : table R) : outcome (table R) :=
  let i := next_rowid id t in
  if i <=? max_rowid
  then Return {| rows := rows t ++ [mk i]; seq := i |}
  else Raise OperationalError.

(** [cursor.executemany(sql, params)]: one statement per parameter tuple,
    stopping at the first failure. *)
Fixpoint executemany {P T : Type} (stmt : P -> T -> outcome T) (params : list P) (t : T) : outcome T :=
  match params with
  | [] => Return t
  | p :: params' =>
      match stmt p t with
      | Return t' => executemany stmt params' t'
      | Raise e => Raise e
      | RaiseBase e => RaiseBase e
      end
  end.

(** A row of [sales_people]. *)
Record sales_person : Type := {
  sp_id : Z;
  sp_name : str;
  sp_email : str;
  sp_region : str;
  sp_hire_date : str;
  sp_quota : Float.float
}.

(** A calendar day, as its proleptic Gregorian ordinal; the column holds
    its rendering by [strftime("%Y-%m-%d")], which is one-to-one on days. *)
Definition date := Z.

(** A [datetime]: the day and the time of day in microseconds. *)
Record datetime : Type := { ordinal : date; time_of_day : Z }.

(** [dt + timedelta(days=n)] and [dt - timedelta(days=n)] *)
Definition add_days (dt : datetime) (n : Z) : datetime :=
  {| ordinal := ordinal dt + n; time_of_day := time_of_day dt |}.
Definition sub_days (dt : datetime) (n : Z) : datetime :=
  {| ordinal := ordinal dt - n; time_of_day := time_of_day dt |}.

(** [dt.strftime("%Y-%m-%d")] *)
Definition strftime_ymd (dt : datetime) : date := ordinal dt.

(** A row of [sales]. *)
Record sale : Type := {
  sale_id : Z;
  sales_person_id : Z;
  sale_date : date;
  amount : Float.float;
  product_category : str;
  customer_name : str
}.

(** The two tables of the file; [None] is a table that does not exist. *)
Record database : Type := {
  sales_people : option (table sales_person);
  sales : option (table sale)
}.

(** A path at which there is no file yet. *)
Definition empty_database : database := {| sales_people := None; sales := None |}.

(** [CREATE TABLE IF NOT EXISTS] *)
Definition create_table_if_not_exists {R : Type} (t : option (table R)) : table R :=
  match t with
  | Some t => t
  | None => {| rows := []; seq := 0 |}
  end.

(** The rows of a table, none when the table does not exist. *)
Definition table_rows {R : Type} (t : option (table R)) : list R :=
  match t with
  | Some t => rows t
  | None => []
  end.

(** The parameter tuples of the two [INSERT] statements. *)
Definition sales_person_params : Type := (str * str * str * str * Float.float)%type.
Definition sale_params : Type := (Z * date * Float.float * str * str)%type.

(** [INSERT INTO sales_people (name, email, region, hire_date, quota)]:
    [email] is [UNIQUE]. *)
Definition insert_sales_person (p : sales_person_params) (t : table sales_person) : outcome (table sales_person) :=
  let '(name, email, region, hire_date, quota) := p in
  if existsb (fun r => str_eqb (sp_email r) email) (rows t)
  then Raise IntegrityError
  else insert sp_id
         (fun i => {| sp_id := i; sp_name := name; sp_email := email;
                      sp_region := region; sp_hire_date := hire_date;
                      sp_quota := quota |}) t.

(** [INSERT INTO sales (sales_person_id, sale_date, amount,
    product_category, customer_name)]; SQLite does not enforce the foreign
    key unless asked to, and the connection does not ask. *)
Definition insert_sale (p : sale_params) (t : table sale) : outcome (table sale) :=
  let '(person, day, amt, category, customer) := p in
  insert sale_id
    (fun i => {| sale_id := i; sales_person_id := person; sale_date := day;
                 amount := amt; product_category := category;
                 customer_name := customer |}) t.

(** *** init_database *)

Definition sales_people_roster : list sales_person_params :=
  [ (lit "Alice Johnson", lit "alice.johnson@company.com", lit "North", lit "2022-01-15", Float.of_Z 100000);
    (lit "Bob Smith", lit "bob.smith@company.com", lit "South", lit "2022-03-20", Float.of_Z 120000);
    (lit "Carol Williams", lit "carol.williams@company.com", lit "East", lit "2021-11-10", Float.of_Z 95000);
    (lit "David Brown", lit "david.brown@company.com", lit "West", lit "2023-02-01", Float.of_Z 110000);
    (lit "Eva Davis", lit "eva.davis@company.com", lit "North", lit "2022-07-15", Float.of_Z 105000);
    (lit "Frank Miller", lit "frank.miller@company.com", lit "South", lit "2021-09-05", Float.of_Z 115000);
    (lit "Grace Wilson", lit "grace.wilson@company.com", lit "East", lit "2023-01-10", Float.of_Z 98000);
    (lit "Henry Moore", lit "henry.moore@company.com", lit "West", lit "2022-05-22", Float.of_Z 125000) ].

Definition product_categories : list str :=
  [ lit "Electronics"; lit "Clothing"; lit "Food"; lit "Furniture"; lit "Books"; lit "Toys" ].

Definition customer_names : list str :=
  [ lit "Acme Corp"; lit "Tech Solutions"; lit "Global Industries"; lit "Mega Store";
    lit "City Retail"; lit "Prime Services"; lit "Elite Group"; lit "Super Market";
    lit "Best Buy Co"; lit "Top Shelf Inc"; lit "Quality Goods"; lit "Premium Brands" ].

(** The body of the inner loop: one sale of the day [sale_date], appended
    to [sales_data]. *)
Definition generate_sale (sales_person_ids : list Z) (sale_date : datetime) (sales_data : list sale_params) : M (list sale_params) :=
  sales_person_id <- choice sales_person_ids ;;
  u <- uniform (Float.of_Z 100) (Float.of_Z 5000) ;;
  let amount := Float.round u 2 in
  product_category <- choice product_categories ;;
  customer_name <- choice customer_names ;;
  ret (sales_data ++ [(sales_person_id, strftime_ymd sale_date, amount, product_category, customer_name)]).

(** The body of the outer loop: the sales of the day [start_date + day_offset]. *)
Definition generate_day (sales_person_ids : list Z) (start_date : datetime) (day_offset : Z) (sales_data : list sale_params) : M (list sale_params) :=
  let sale_date := add_days start_date day_offset in
  num_sales <- randint 5 15 ;;
  for_each (range num_sales) (fun _ => generate_sale sales_person_ids sale_date) sales_data.

(** [sales_data] after the loop over the 90 days that start 90 days before
    [now]. *)
Definition generate_sales_data (now : datetime) (sales_person_ids : list Z) : M (list sale_params) :=
  let start_date := sub_days now 90 in
  for_each (range 90) (generate_day sales_person_ids start_date) [].

(** [init_database(db_path)], on the database found at [db_path]
    ([empty_database] when there is no file) and the clock reading [now]
    that [datetime.now()] gives if it is called.  The result is the
    committed database. *)
Definition init_database (now : datetime) (db : database) : M database :=
  let people := create_table_if_not_exists (sales_people db) in
  let sales_table := create_table_if_not_exists (sales db) in
  if Z.of_nat (List.length (rows people)) =? 0 then
    people' <- lift (executemany insert_sales_person sales_people_roster people) ;;
    let sales_person_ids := map sp_id (rows people') in
    sales_data <- generate_sales_data now sales_person_ids ;;
    sales_table' <- lift (executemany insert_sale sales_data sales_table) ;;
    ret {| sales_people := Some people'; sales := Some sales_table' |}
  else
    ret {| sales_people := Some people; sales := Some sales_table |}.

(** *** get_database_path *)

Definition get_database_path (database_url : str) : str :=
  if startswith database_url (lit "sqlite:///") then
    let path := replace database_url (lit "sqlite:///") [] in
    if startswith path (lit "./") then path
    else if negb (startswith path (lit "/")) then lit "./" ++ path
    else path
  else database_url.

End Database.

(** ** agent.py *)

Module Agent.
Import Py.

(** The Python objects that travel between the agent and the handler:
    [None], a [bool], a [str], a [list], or an object of another class.  Of
    such an object the handler sees its truth value and what the validators
    of the response model (pydantic, lax mode) make of it: the string it is
    read as where a string is expected ([bytes] are decoded) and the list it
    is converted to where a list is expected (a [tuple], a [set]); [None]
    where the validator refuses the object. *)
#[warnings="-register-all"]
Inductive value : Type :=
| VNone
| VBool (b : bool)
| VStr (s : str)
| VList (items : list value)
| VObject (repr : str) (is_true : bool) (as_str : option str) (as_list : option (list value)).

(** An object that is true and that both validators refuse (an
    [AgentAction], a database handle, a model). *)
Definition opaque (repr : str) : value := VObject repr true None None.

(** A [dict] with string keys, in insertion order. *)
Definition dict := list (str * value).

(** [d[key]], [None] standing for [KeyError]. *)
Fixpoint getitem (d : dict) (key : str) : option value :=
  match d with
  | [] => None
  | (k, v) :: d' => if str_eqb k key then Some v else getitem d' key
  end.

(** [d.get(key, default)] *)
Definition get (d : dict) (key : str) (default : value) : value :=
  match getitem d key with
  | Some v => v
  | None => default
  end.

(** The agent handle: its one entry point [invoke], which returns a
    mapping or raises. *)
Record agent : Type := { invoke : dict -> outcome dict }.

(** A result together with the inputs that were passed to [agent.invoke]
    on the way, in order. *)
Definition traced (A : Type) : Type := (A * list dict)%type.

(** The mapping handed to [agent.invoke]: [{"input": query}]. *)
Definition agent_input (query : str) : dict := [(lit "input", VStr query)].

Definition query_database (agent : agent) (query : str) : traced (outcome dict) :=
  let input := agent_input query in
  (match invoke agent input with
   | Return result =>
       Return [ (lit "success", VBool true);
                (lit "result", get result (lit "output") (VStr (lit "No result returned")));
                (lit "intermediate_steps", get result (lit "intermediate_steps") (VList [])) ]
   | Raise e =>
       match exc_str e with
       | Str error =>
           Return [ (lit "success", VBool false);
                    (lit "error", VStr error);
                    (lit "result", VNone) ]
       | StrRaise e' => Raise e'
       | StrRaiseBase e' => RaiseBase e'
       end
   | RaiseBase e => RaiseBase e
   end, [input]).


(** *** create_sql_agent_executor *)

(** The dictionary [llm_kwargs] that [ChatOpenAI] is called with: [model],
    [temperature] and [api_key] are always there when the call is made;
    [kw_base_url] is [None] when the dictionary has no [base_url] key. *)
Record llm_kwargs : Type := {
  kw_model : str;
  kw_temperature : Float.float;
  kw_api_key : str;
  kw_base_url : option str
}.

(** The LangChain entry points the function calls; each returns an object
    or raises.  [ChatOpenAI] reads from the process environment what its
    keyword arguments leave out (the base URL, the organization, the
    proxy), so it is a function of the environment too. *)
Record langchain : Type := {
  from_uri : str -> outcome value;
  ChatOpenAI : Config.environ -> llm_kwargs -> outcome value;
  SQLDatabaseToolkit : value -> value -> outcome value;
  create_sql_agent : value -> value -> bool -> str -> bool -> outcome agent
}.

(** The calls made to LangChain, in order. *)
Inductive call : Type :=
| Call_from_uri (database_url : str)
| Call_ChatOpenAI (kwargs : llm_kwargs)
| Call_SQLDatabaseToolkit (db llm : value)
| Call_create_sql_agent (llm toolkit : value) (verbose : bool) (agent_type : str)
    (handle_parsing_errors : bool).

(** [str(b)] inside an f-string. *)
Definition format_bool (b : bool) : str := if b then lit "True" else lit "False".

(** The [ValueError] raised when no API key is found. *)
Definition missing_api_key (settings : Config.Settings) (env : Config.environ) : exception :=
  {| exc_class := lit "ValueError";
     exc_str :=
       Str (lit "OPENAI_API_KEY not found! "
            ++ lit "Please set it in your .env file or as an environment variable. "
            ++ lit "Settings has key: "
            ++ format_bool (Config.truthy_opt (Config.openai_api_key settings))
            ++ lit ", "
            ++ lit "Env var exists: "
            ++ format_bool (Config.truthy_opt (Config.getenv env (lit "OPENAI_API_KEY")))) |}.

(** [create_sql_agent_executor(database_url)], given the module's
    [settings] and the process environment: the agent or the exception,
    and the calls made to LangChain on the way. *)
Definition create_sql_agent_executor (lc : langchain) (settings : Config.Settings)
    (env : Config.environ) (database_url : str) : outcome agent * list call :=
  match from_uri lc database_url with
  | Return db =>
      let api_key :=
        Config.or_opt (Config.openai_api_key settings)
          (Config.getenv env (lit "OPENAI_API_KEY")) in
      match api_key with
      | Some key =>
          if negb (truthy key)
          then (Raise (missing_api_key settings env), [Call_from_uri database_url])
          else
            let kwargs :=
              {| kw_model := Config.openai_model settings;
                 kw_temperature := Config.openai_temperature settings;
                 kw_api_key := key;
                 kw_base_url :=
                   if Config.truthy_opt (Config.openai_base_url settings)
                   then Config.openai_base_url settings
                   else None |} in
            match ChatOpenAI lc env kwargs with
            | Return llm =>
                match SQLDatabaseToolkit lc db llm with
                | Return toolkit =>
                    (create_sql_agent lc llm toolkit true (lit "openai-tools") true,
                     [ Call_from_uri database_url; Call_ChatOpenAI kwargs;
                       Call_SQLDatabaseToolkit db llm;
                       Call_create_sql_agent llm toolkit true (lit "openai-tools") true ])
                | Raise e =>
                    (Raise e,
                     [ Call_from_uri database_url; Call_ChatOpenAI kwargs;
                       Call_SQLDatabaseToolkit db llm ])
                | RaiseBase e =>
                    (RaiseBase e,
                     [ Call_from_uri database_url; Call_ChatOpenAI kwargs;
                       Call_SQLDatabaseToolkit db llm ])
                end
            | Raise e => (Raise e, [Call_from_uri database_url; Call_ChatOpenAI kwargs])
            | RaiseBase e => (RaiseBase e, [Call_from_uri database_url; Call_ChatOpenAI kwargs])
            end
      | None => (Raise (missing_api_key settings env), [Call_from_uri database_url])
      end
  | Raise e => (Raise e, [Call_from_uri database_url])
  | RaiseBase e => (RaiseBase e, [Call_from_uri database_url])
  end.

End Agent.

(** ** main.py *)

Module Main.
Import Py Agent.

Record QueryRequest : Type := { query : str }.

Record QueryResponse : Type := {
  success : bool;
  result : option str;
  error : option str;
  intermediate_steps : option (list value)
}.

(** What the handler hands to the framework: a response model, an
    [HTTPException], or any other exception. *)
Inductive handled : Type :=
| Respond (r : QueryResponse)
| HTTPException (status_code : Z) (detail : str)
| Unhandled (e : exception).

Definition KeyError (key : str) : exception :=
  {| exc_class := lit "KeyError"; exc_str := Str key |}.
Definition ValidationError (field : str) : exception :=
  {| exc_class := lit "pydantic.ValidationError"; exc_str := Str field |}.

(** Truth value of an object. *)
Definition truth (v : value) : bool :=
  match v with
  | VNone => false
  | VBool b => b
  | VStr s => truthy s
  | VList items => match items with [] => false | _ :: _ => true end
  | VObject _ is_true _ _ => is_true
  end.

(** Validation of a field declared [Optional[str]] and of one declared
    [Optional[list]]: [None] is kept, a value of the field's type is kept,
    an object of another class is converted where the validator accepts it;
    a [bool] is no string and no list, a list is no string, and a string is
    no list. *)
Definition optional_str (field : str) (v : value) : outcome (option str) :=
  match v with
  | VNone => Return None
  | VStr s => Return (Some s)
  | VObject _ _ (Some s) _ => Return (Some s)
  | _ => Raise (ValidationError field)
  end.

Definition optional_list (field : str) (v : value) : outcome (option (list value)) :=
  match v with
  | VNone => Return None
  | VList items => Return (Some items)
  | VObject _ _ _ (Some items) => Return (Some items)
  | _ => Raise (ValidationError field)
  end.

(** The two constructor calls of the handler. *)
Definition success_response (result_v steps_v : value) : handled :=
  match optional_str (lit "result") result_v with
  | Return r =>
      match optional_list (lit "intermediate_steps") steps_v with
      | Return steps =>
          Respond {| success := true; result := r; error := None;
                     intermediate_steps := steps |}
      | Raise e | RaiseBase e => Unhandled e
      end
  | Raise e | RaiseBase e => Unhandled e
  end.

Definition failure_response (error_v : value) : handled :=
  match optional_str (lit "error") error_v with
  | Return e =>
      Respond {| success := false; result := None; error := e;
                 intermediate_steps := None |}
  | Raise e | RaiseBase e => Unhandled e
  end.

(** The POST /query handler, given the global [agent_executor]. *)
Definition execute_query (agent_executor : option agent) (request : QueryRequest) : traced handled :=
  match agent_executor with
  | None => (HTTPException 503 (lit "Agent not initialized"), [])
  | Some agent =>
      if negb (truthy (strip (query request)))
      then (HTTPException 400 (lit "Query cannot be empty"), [])
      else
        let '(r, calls) := query_database agent (query request) in
        (match r with
         | Return result =>
             match getitem result (lit "success") with
             | None => Unhandled (KeyError (lit "success"))
             | Some ok =>
                 if truth ok then
                   match getitem result (lit "result") with
                   | None => Unhandled (KeyError (lit "result"))
                   | Some result_v =>
                       success_response result_v
                         (get result (lit "intermediate_steps") VNone)
                   end
                 else
                   match getitem result (lit "error") with
                   | None => Unhandled (KeyError (lit "error"))
                   | Some error_v => failure_response error_v
                   end
             end
         | Raise e | RaiseBase e => Unhandled e
         end, calls)
  end.

(** [health()]: the readiness flag. *)
Definition agent_initialized (agent_executor : option agent) : bool :=
  match agent_executor with
  | None => false
  | Some _ => true
  end.


(** [debug_env()]: the body of the answer. *)
Record DebugEnv : Type := {
  openai_api_key_from_settings : str;
  openai_api_key_set : bool;
  debug_openai_base_url : option str;
  debug_openai_model : str;
  env_openai_api_key : str;
  settings_openai_api_key : str
}.

(** The GET /debug/env handler, given [settings] and the process
    environment. *)
Definition debug_env (settings : Config.Settings) (env : Config.environ) : DebugEnv :=
  let api_key :=
    Config.or_str (Config.openai_api_key settings)
      (Config.getenv_default env (lit "OPENAI_API_KEY") (lit "NOT_SET")) in
  let api_key_display :=
    if truthy api_key && negb (str_eqb api_key (lit "NOT_SET"))
       && (10 <? Z.of_nat (List.length api_key))
    then firstn 10 api_key ++ lit "..."
    else lit "NOT_SET" in
  {| openai_api_key_from_settings := api_key_display;
     openai_api_key_set := truthy api_key && negb (str_eqb api_key (lit "NOT_SET"));
     debug_openai_base_url := Config.openai_base_url settings;
     debug_openai_model := Config.openai_model settings;
     env_openai_api_key :=
       if Config.truthy_opt (Config.getenv env (lit "OPENAI_API_KEY"))
       then lit "SET" else lit "NOT_SET";
     settings_openai_api_key :=
       if Config.truthy_opt (Config.openai_api_key settings)
       then lit "SET" else lit "NOT_SET" |}.

(** What a startup leaves: the database committed to the file it opened,
    the module global [agent_executor], and how the handler ended. *)
Record started : Type := {
  database_file : Database.database;
  agent_executor : option agent;
  raised : outcome unit
}.

(** [startup_event()], given the current value of the global and, for a
    path, what making its directory and opening it as a database gives:
    the database found there (the empty one where there is no file yet) or
    the exception of [Path.mkdir] or [sqlite3.connect].  That exception and
    those of [init_database] end the computation; an exception of
    [create_sql_agent_executor] is raised again after the database has been
    initialized, and leaves the global as it was.  The two [print] calls
    are left out. *)
Definition startup_event (lc : langchain) (settings : Config.Settings) (env : Config.environ)
    (now : Database.datetime) (connect : str -> outcome Database.database)
    (current : option agent) : Random.M started :=
  let db_path := Database.get_database_path (Config.database_url settings) in
  Random.bind (Random.lift (connect db_path))
    (fun found =>
       Random.bind (Database.init_database now found)
         (fun db =>
            match fst (create_sql_agent_executor lc settings env
                         (Config.database_url settings)) with
            | Return a =>
                Random.ret {| database_file := db; agent_executor := Some a;
                              raised := Return tt |}
            | Raise e =>
                Random.ret {| database_file := db; agent_executor := current;
                              raised := Raise e |}
            | RaiseBase e =>
                Random.ret {| database_file := db; agent_executor := current;
                              raised := RaiseBase e |}
            end)).

End Main.

(** ** Vocabulary of the statements *)

Module Spec.
Import Py Random Database.

(** The computation [m], run on the tape [g], returns a value that
    satisfies [P] (it does not raise). *)
Definition returns {A : Type} (m : M A) (g : rng) (P : A -> Prop) : Prop :=
  exists a g', m g = Return (a, g') /\ P a.

(** The fields of a generated tuple. *)
Definition params_person (p : sale_params) : Z := let '(person, _, _, _, _) := p in person.
Definition params_date (p : sale_params) : date := let '(_, day, _, _, _) := p in day.
Definition params_amount (p : sale_params) : Float.float := let '(_, _, amt, _, _) := p in amt.

(** The tuple a row of [sales] was inserted from. *)
Definition sale_tuple (s : sale) : sale_params :=
  (sales_person_id s, sale_date s, amount s, product_category s, customer_name s).

(** How many of the tuples, and of the rows, are dated [day]. *)
Definition count_dated (day : date) (l : list sale_params) : nat :=
  count_occ Z.eq_dec (map params_date l) day.
Definition count_rows_dated (day : date) (l : list sale) : nat :=
  count_occ Z.eq_dec (map sale_date l) day.

(** A database that [init_database] will seed: [sales_people] holds no row,
    and neither table is about to run out of rowids (8 people, at most
    15 sales on each of 90 days). *)
Definition seedable (db : database) : bool :=
  let people := create_table_if_not_exists (sales_people db) in
  let sales_table := create_table_if_not_exists (sales db) in
  (Z.of_nat (List.length (rows people)) =? 0)
  && (next_rowid sp_id people + 7 <=? max_rowid)
  && (next_rowid sale_id sales_table + 1349 <=? max_rowid).

(** A tuple of the day [day], with a person of [ids] and an amount that
    satisfies [amount_ok]. *)
Definition tuple_ok (amount_ok : Float.float -> Prop) (ids : list Z)
    (day : date) (p : sale_params) : Prop :=
  In (params_person p) ids
  /\ params_date p = day
  /\ amount_ok (params_amount p).

(** The state of [sales_data] once the days [done] (offsets from [start])
    have been generated. *)
Definition days_generated (amount_ok : Float.float -> Prop) (ids : list Z)
    (start : date) (done : list Z) (sales_data : list sale_params) : Prop :=
  Forall (fun p => In (params_person p) ids
                   /\ amount_ok (params_amount p)
                   /\ exists d, In d done /\ params_date p = start + d) sales_data
  /\ (forall d, In d done -> (5 <= count_dated (start + d)%Z sales_data <= 15)%nat)
  /\ (List.length sales_data <= 15 * List.length done)%nat.

(** The rows the two [INSERT] statements build from a parameter tuple and
    a rowid. *)
Definition person_of_params (p : sales_person_params) (i : Z) : sales_person :=
  let '(name, email, region, hire_date, quota) := p in
  {| sp_id := i; sp_name := name; sp_email := email; sp_region := region;
     sp_hire_date := hire_date; sp_quota := quota |}.

Definition sale_of_params (p : sale_params) (i : Z) : sale :=
  let '(person, day, amt, category, customer) := p in
  {| sale_id := i; sales_person_id := person; sale_date := day; amount := amt;
     product_category := category; customer_name := customer |}.

Definition params_email (p : sales_person_params) : str :=
  let '(_, email, _, _, _) := p in email.

(** The rows built from the tuples [ps], numbered from [n]. *)
Fixpoint inserted_rows {P R : Type} (mk : P -> Z -> R) (n : Z) (ps : list P) : list R :=
  match ps with
  | [] => []
  | p :: ps' => mk p n :: inserted_rows mk (n + 1) ps'
  end.

(** Inputs on which the statements are run: a clock reading, an entropy
    tape, and a database that holds one sales person and no [sales] table. *)
Definition sample_now : datetime := {| ordinal := 739194; time_of_day := 34200000000 |}.

Definition sample_tape : rng :=
  fun n => (((N.of_nat n + 1) * 6364136223846793005 + 1442695040888963407) ^ 2
            / 4294967296 mod 18446744073709551616)%N.

Definition sample_seeded : database :=
  {| sales_people :=
       Some {| rows := [ person_of_params
                           (lit "Alice Johnson", lit "alice.johnson@company.com",
                            lit "North", lit "2022-01-15", Float.of_Z 100000) 1 ];
               seq := 1 |};
     sales := None |}.

(** Three agents: one whose [invoke] raises, one that answers with an
    output and one step, one that answers with an empty mapping. *)
Definition failing_agent : Agent.agent :=
  {| Agent.invoke := fun _ =>
       Raise {| exc_class := lit "RuntimeError"; exc_str := Str (lit "connection refused") |} |}.

Definition answering_agent : Agent.agent :=
  {| Agent.invoke := fun _ =>
       Return [ (lit "output", Agent.VStr (lit "42 sales today"));
                (lit "intermediate_steps", Agent.VList [Agent.opaque (lit "AgentAction")]) ] |}.

Definition silent_agent : Agent.agent :=
  {| Agent.invoke := fun _ => Return [] |}.




(** An amount of the closed interval [100.00, 5000.00]. *)
Definition in_range (a : Float.float) : Prop :=
  Float.leb (Float.of_Z 100) a = true /\ Float.leb a (Float.of_Z 5000) = true.

(** An amount with two decimals: rounding it to two decimals leaves it as
    it is, and it is the float nearest to a whole number of cents. *)
Definition two_decimals (a : Float.float) : Prop :=
  Float.round a 2 = a /\ exists k : Z, a = Float.of_ratio false k 100.

Definition valid_amount (a : Float.float) : Prop := in_range a /\ two_decimals a.

Definition params_category (p : sale_params) : str := let '(_, _, _, category, _) := p in category.
Definition params_customer (p : sale_params) : str := let '(_, _, _, _, customer) := p in customer.

(** The tuple a row of [sales_people] was inserted from. *)
Definition person_tuple (r : sales_person) : sales_person_params :=
  (sp_name r, sp_email r, sp_region r, sp_hire_date r, sp_quota r).

(** The ids [n], [n + 1], ... of [k] rows inserted one after the other. *)
Definition consecutive (n : Z) (k : nat) : list Z := map (fun i => n + i) (range (Z.of_nat k)).

(** Settings, environments and a LangChain whose constructors succeed, on
    which the statements are run. *)
Definition sample_settings : Config.Settings :=
  {| Config.database_url := lit "sqlite:///./data/sales.db";
     Config.llm_provider := lit "openai";
     Config.openai_api_key := Some (lit "sk-proj-0123456789abcdef");
     Config.openai_base_url := Some [];
     Config.openai_model := lit "gpt-4o-mini";
     Config.openai_temperature := Float.of_Z 0;
     Config.api_host := lit "0.0.0.0";
     Config.api_port := 8000;
     Config.cors_origins := [lit "http://localhost:3000"] |}.

Definition empty_environ : Config.environ := fun _ => None.

Definition sample_environ : Config.environ :=
  fun key => if str_eqb key (lit "OPENAI_API_KEY") then Some (lit "sk-env") else None.

Definition sample_langchain : Agent.langchain :=
  {| Agent.from_uri := fun _ => Return (Agent.opaque (lit "SQLDatabase"));
     Agent.ChatOpenAI := fun _ _ => Return (Agent.opaque (lit "ChatOpenAI"));
     Agent.SQLDatabaseToolkit := fun _ _ => Return (Agent.opaque (lit "SQLDatabaseToolkit"));
     Agent.create_sql_agent := fun _ _ _ _ _ => Return answering_agent |}.

(** Two more agents: one whose output is [None], one whose output is a
    list of content blocks. *)
Definition null_agent : Agent.agent :=
  {| Agent.invoke := fun _ => Return [ (lit "output", Agent.VNone) ] |}.

Definition blocks_agent : Agent.agent :=
  {| Agent.invoke := fun _ =>
       Return [ (lit "output", Agent.VList [Agent.VStr (lit "42 sales today")]) ] |}.

(** A disk without a database file, and one whose file holds
    [sample_seeded]. *)
Definition new_disk : str -> outcome database := fun _ => Return empty_database.

Definition seeded_disk : str -> outcome database := fun _ => Return sample_seeded.

End Spec.

(** * Properties *)

(** ** Strings *)

Section StringFacts.
Import Py.

Lemma str_eqb_refl (a : str) : str_eqb a a = true.
Proof.
  induction a as [|x a IH]; simpl; [reflexivity|].
  now rewrite N.eqb_refl, IH.
Qed.

Lemma str_eqb_eq (a b : str) : str_eqb a b = true <-> a = b.
Proof.
  split; [|intros ->; apply str_eqb_refl].
  revert b; induction a as [|x a IH]; intros [|y b]; simpl; try discriminate; auto.
  intros H. apply andb_true_iff in H as [Hx Hr].
  apply N.eqb_eq in Hx. subst y. f_equal. now apply IH.
Qed.

Lemma startswith_app (p s : str) : startswith (p ++ s) p = true.
Proof.
  induction p as [|c p IH]; simpl; [reflexivity|].
  now rewrite N.eqb_refl, IH.
Qed.

(** Passing over the rest of a matched occurrence. *)
Lemma replace_from_skip (p s old new : str) :
  replace_from (List.length p) (p ++ s) old new = replace_from 0 s old new.
Proof.
  induction p as [|c p IH]; simpl; [reflexivity|exact IH].
Qed.

(** A string that begins with [old] is rewritten as [new] followed by the
    rewriting of what follows the occurrence. *)
Lemma replace_prefix (c : N) (old' s new : str) :
  replace ((c :: old') ++ s) (c :: old') new = new ++ replace s (c :: old') new.
Proof.
  unfold replace.
  change (replace_from 0 ((c :: old') ++ s) (c :: old') new)
    with (if startswith ((c :: old') ++ s) (c :: old')
          then new ++ replace_from (List.length (c :: old') - 1) (old' ++ s) (c :: old') new
          else c :: replace_from 0 (old' ++ s) (c :: old') new).
  rewrite startswith_app.
  replace (List.length (c :: old') - 1)%nat with (List.length old') by (simpl; lia).
  now rewrite replace_from_skip.
Qed.

Lemma lstrip_whitespace (s : str) :
  Forall (fun c => isspace c = true) s -> lstrip s = [].
Proof.
  induction 1 as [|c s Hc _ IH]; simpl; [reflexivity|].
  now rewrite Hc.
Qed.

Lemma strip_whitespace (s : str) :
  Forall (fun c => isspace c = true) s -> strip s = [].
Proof.
  intros H. unfold strip, rstrip. now rewrite (lstrip_whitespace s H).
Qed.

End StringFacts.

(** ** get_database_path *)

Section DatabasePath.
Import Py Database.

(** C5: with the scheme of the code, [sqlite], in the place of the
    specification's [scheme], the three URLs are mapped to the stated paths.
    In general the path that follows [sqlite:///] (without further
    occurrences of that prefix) is kept when it begins with [./] or with
    [/], and is prefixed with [./] otherwise: a relative path is rooted at
    the current directory, an absolute one is kept.  A string that does not
    begin with [sqlite:///] is returned as it is. *)
Theorem get_database_path_sqlite :
  get_database_path (lit "sqlite:///./data/sales.db") = lit "./data/sales.db"
  /\ get_database_path (lit "sqlite:///sales.db") = lit "./sales.db"
  /\ get_database_path (lit "sqlite:////abs/sales.db") = lit "/abs/sales.db"
  /\ (forall path : str,
        let path' := replace path (lit "sqlite:///") [] in
        get_database_path (lit "sqlite:///" ++ path) =
        if startswith path' (lit "./") || startswith path' (lit "/")
        then path' else lit "./" ++ path')
  /\ (forall database_url : str,
        startswith database_url (lit "sqlite:///") = false ->
        get_database_path database_url = database_url).
Proof.
  repeat split; try reflexivity.
  - intros path path'. unfold get_database_path.
    rewrite startswith_app.
    assert (E : replace (lit "sqlite:///" ++ path) (lit "sqlite:///") [] = path')
      by exact (replace_prefix 115%N (tl (lit "sqlite:///")) path []).
    rewrite E.
    destruct (startswith path' (lit "./")); [reflexivity|].
    destruct (startswith path' (lit "/")); reflexivity.
  - intros database_url H. unfold get_database_path. now rewrite H.
Qed.

End DatabasePath.

(** ** The query facade *)

Section Facade.
Import Py Agent Main.

(** C6: a query that is empty or made of whitespace only is answered with
    the invalid-input error (400) and [agent.invoke] is not called. *)
Theorem execute_query_rejects_blank (a : agent) (q : str) :
  Forall (fun c => isspace c = true) q ->
  execute_query (Some a) {| query := q |}
  = (HTTPException 400 (lit "Query cannot be empty"), []).
Proof.
  intros H. unfold execute_query. simpl query.
  now rewrite (strip_whitespace q H).
Qed.


(** An exception outside the [Exception] hierarchy is not caught. *)
Lemma query_database_base_exception (a : agent) (q : str) (e : exception) :
  invoke a (agent_input q) = RaiseBase e ->
  query_database a q = (RaiseBase e, [agent_input q]).
Proof.
  intros H. unfold query_database. now rewrite H.
Qed.

(** The exception that [str(e)] raises inside the [except] clause leaves
    [query_database]. *)
Lemma query_database_str_raises (a : agent) (q : str) (e e' : exception) :
  invoke a (agent_input q) = Raise e ->
  (exc_str e = StrRaise e' -> query_database a q = (Raise e', [agent_input q]))
  /\ (exc_str e = StrRaiseBase e' -> query_database a q = (RaiseBase e', [agent_input q])).
Proof.
  intros H. unfold query_database. rewrite H. split; intros ->; reflexivity.
Qed.


(** C8: when [agent.invoke] returns a mapping with an output text and a
    list of intermediate steps, [query_database] returns the success
    envelope with both, and the handler answers a non-blank query with the
    same text and steps. *)
Theorem query_database_success (a : agent) (q : str) (r : dict) (text : str) (steps : list value) :
  invoke a (agent_input q) = Return r ->
  getitem r (lit "output") = Some (VStr text) ->
  getitem r (lit "intermediate_steps") = Some (VList steps) ->
  query_database a q
  = (Return [ (lit "success", VBool true);
              (lit "result", VStr text);
              (lit "intermediate_steps", VList steps) ],
     [agent_input q])
  /\ (truthy (strip q) = true ->
      execute_query (Some a) {| query := q |}
      = (Respond {| success := true; result := Some text; error := None;
                    intermediate_steps := Some steps |},
         [agent_input q])).
Proof.
  intros Hinv Hout Hsteps.
  assert (Hq : query_database a q
               = (Return [ (lit "success", VBool true);
                           (lit "result", VStr text);
                           (lit "intermediate_steps", VList steps) ],
                  [agent_input q])).
  { unfold query_database. rewrite Hinv.
    unfold get. now rewrite Hout, Hsteps. }
  split; [exact Hq|].
  intros Hne. unfold execute_query. simpl query. rewrite Hne. simpl negb. cbv iota.
  rewrite Hq. reflexivity.
Qed.


(** C10: when the mapping returned by [agent.invoke] has no output field,
    [query_database] still returns a success envelope, whose result is the
    string "No result returned"; the steps are the empty list when that
    field is absent too. *)
Theorem query_database_no_output (a : agent) (q : str) (r : dict) :
  invoke a (agent_input q) = Return r ->
  getitem r (lit "output") = None ->
  query_database a q
  = (Return [ (lit "success", VBool true);
              (lit "result", VStr (lit "No result returned"));
              (lit "intermediate_steps", get r (lit "intermediate_steps") (VList [])) ],
     [agent_input q])
  /\ (getitem r (lit "intermediate_steps") = None ->
      get r (lit "intermediate_steps") (VList []) = VList []).
Proof.
  intros Hinv Hout. split.
  - unfold query_database. rewrite Hinv.
    unfold get at 1. now rewrite Hout.
  - intros Hs. unfold get. now rewrite Hs.
Qed.

Lemma execute_query_rejects_blank_witness :
  execute_query (Some Spec.failing_agent) {| query := lit "   " |}
  = (HTTPException 400 (lit "Query cannot be empty"), []).
Proof.
  apply (execute_query_rejects_blank Spec.failing_agent (lit "   ")).
  repeat constructor.
Defined.


Lemma query_database_success_witness :
  query_database Spec.answering_agent (lit "How many sales today?")
  = (Return [ (lit "success", VBool true);
              (lit "result", VStr (lit "42 sales today"));
              (lit "intermediate_steps", VList [opaque (lit "AgentAction")]) ],
     [agent_input (lit "How many sales today?")])
  /\ execute_query (Some Spec.answering_agent) {| query := lit "How many sales today?" |}
     = (Respond {| success := true; result := Some (lit "42 sales today"); error := None;
                   intermediate_steps := Some [opaque (lit "AgentAction")] |},
        [agent_input (lit "How many sales today?")]).
Proof.
  destruct (query_database_success Spec.answering_agent (lit "How many sales today?")
              _ (lit "42 sales today") [opaque (lit "AgentAction")]
              eq_refl eq_refl eq_refl) as [H1 H2].
  split; [exact H1|apply H2; reflexivity].
Defined.

Lemma query_database_no_output_witness :
  query_database Spec.silent_agent (lit "How many sales today?")
  = (Return [ (lit "success", VBool true);
              (lit "result", VStr (lit "No result returned"));
              (lit "intermediate_steps", VList []) ],
     [agent_input (lit "How many sales today?")]).
Proof.
  destruct (query_database_no_output Spec.silent_agent (lit "How many sales today?") []
              eq_refl eq_refl) as [H1 H2].
  exact H1.
Defined.

End Facade.

(** ** The random monad *)

Section RandomFacts.
Import Py Random Spec.

Lemma returns_ret {A : Type} (a : A) (g : rng) (P : A -> Prop) :
  P a -> returns (ret a) g P.
Proof. intros H. exists a, g. split; [reflexivity|exact H]. Qed.

Lemma returns_bind {A B : Type} (m : M A) (f : A -> M B) (g : rng)
      (P : A -> Prop) (Q : B -> Prop) :
  returns m g P ->
  (forall a g', P a -> returns (f a) g' Q) ->
  returns (bind m f) g Q.
Proof.
  intros (a & g1 & Hm & Ha) Hf.
  destruct (Hf a g1 Ha) as (b & g2 & Hb & HQ).
  exists b, g2. split; [|exact HQ].
  unfold bind. now rewrite Hm.
Qed.

Lemma returns_weaken {A : Type} (m : M A) (g : rng) (P Q : A -> Prop) :
  returns m g P -> (forall a, P a -> Q a) -> returns m g Q.
Proof.
  intros (a & g' & Hm & Ha) H. exists a, g'. split; [exact Hm|auto].
Qed.

Lemma returns_lift {A : Type} (o : outcome A) (a : A) (g : rng) (P : A -> Prop) :
  o = Return a -> P a -> returns (lift o) g P.
Proof.
  intros -> H. exists a, g. split; [reflexivity|exact H].
Qed.

Lemma returns_randbelow (n : Z) (g : rng) :
  0 < n -> returns (randbelow n) g (fun r => 0 <= r < n).
Proof.
  intros Hn. eexists _, _. split; [reflexivity|].
  apply Z.mod_pos_bound; exact Hn.
Qed.

Lemma returns_randint (a b : Z) (g : rng) :
  a <= b -> returns (randint a b) g (fun r => a <= r <= b).
Proof.
  intros Hab. unfold randint.
  destruct (Z.leb_spec (b - a + 1) 0) as [H|H]; [lia|].
  eapply returns_bind; [apply returns_randbelow; lia|].
  intros r g' Hr. apply returns_ret. cbv beta in Hr. lia.
Qed.

Lemma returns_choice {A : Type} (l : list A) (g : rng) :
  l <> [] -> returns (choice l) g (fun x => In x l).
Proof.
  destruct l as [|d l]; [congruence|]. intros _. unfold choice.
  eapply returns_bind; [apply returns_randbelow; simpl List.length; lia|].
  intros i g' Hi. apply returns_ret. cbv beta in Hi.
  apply nth_In. apply Nat2Z.inj_lt. rewrite Z2Nat.id; lia.
Qed.

Lemma returns_uniform (a b : Float.float) (g : rng) :
  returns (uniform a b) g
    (fun u => exists k, 0 <= k < 2 ^ 53
                        /\ u = Float.add a (Float.mul (Float.sub b a) (Float.ldexp k (-53)))).
Proof.
  eexists _, _. split; [reflexivity|].
  eexists. split; [|reflexivity].
  apply Z.mod_pos_bound. reflexivity.
Qed.

(** The loop rule: an invariant of the elements already visited. *)
Lemma returns_for_each {A S : Type} (I : list A -> S -> Prop)
      (body : A -> S -> M S) (xs : list A) :
  (forall done x rest s g,
      xs = done ++ x :: rest -> I done s ->
      returns (body x s) g (I (done ++ [x]))) ->
  forall s g, I [] s -> returns (for_each xs body s) g (I xs).
Proof.
  intros Hbody.
  assert (H : forall rest done s g,
             xs = done ++ rest -> I done s ->
             returns (for_each rest body s) g (I xs)).
  { induction rest as [|x rest IH]; intros done s g Hxs Hs.
    - rewrite app_nil_r in Hxs. subst done. now apply returns_ret.
    - simpl. eapply returns_bind; [exact (Hbody done x rest s g Hxs Hs)|].
      intros s' g' Hs'. apply (IH (done ++ [x])); [|exact Hs'].
      now rewrite <- app_assoc. }
  intros s g Hs. now apply (H xs []).
Qed.

Lemma range_length (n : Z) : List.length (range n) = Z.to_nat n.
Proof. unfold range. now rewrite length_map, length_seq. Qed.

Lemma range_In (n x : Z) : In x (range n) <-> 0 <= x < n.
Proof.
  unfold range. rewrite in_map_iff. split.
  - intros (k & <- & Hk). apply in_seq in Hk. lia.
  - intros Hx. exists (Z.to_nat x). split; [lia|]. apply in_seq. lia.
Qed.

Lemma range_NoDup (n : Z) : NoDup (range n).
Proof.
  unfold range. apply Injective_map_NoDup; [|apply seq_NoDup].
  intros a b H. lia.
Qed.

End RandomFacts.

(** ** The generated sales *)

Section Generation.
Import Py Random Database Spec.

(** What is known of every amount; the two instances are the trivial
    property and the bounds of the amounts. *)
Variable amount_ok : Float.float -> Prop.
Hypothesis amount_spec :
  forall k, 0 <= k < 2 ^ 53 ->
    amount_ok (Float.round
                 (Float.add (Float.of_Z 100)
                    (Float.mul (Float.sub (Float.of_Z 5000) (Float.of_Z 100))
                       (Float.ldexp k (-53)))) 2).

Variable sales_person_ids : list Z.
Hypothesis ids_not_empty : sales_person_ids <> [].

#[local] Abbreviation tuple_ok := (Spec.tuple_ok amount_ok sales_person_ids).
#[local] Abbreviation days_generated := (Spec.days_generated amount_ok sales_person_ids).

Lemma count_dated_app (day : date) (l1 l2 : list sale_params) :
  count_dated day (l1 ++ l2) = (count_dated day l1 + count_dated day l2)%nat.
Proof. unfold count_dated. now rewrite map_app, count_occ_app. Qed.

Lemma count_dated_all (day : date) (l : list sale_params) :
  Forall (fun p => params_date p = day) l -> count_dated day l = List.length l.
Proof.
  unfold count_dated. induction 1 as [|p l Hp _ IH]; simpl; [reflexivity|].
  destruct (Z.eq_dec (params_date p) day); [now rewrite IH|contradiction].
Qed.

Lemma count_dated_none (day : date) (l : list sale_params) :
  Forall (fun p => params_date p <> day) l -> count_dated day l = 0%nat.
Proof.
  unfold count_dated. induction 1 as [|p l Hp _ IH]; simpl; [reflexivity|].
  destruct (Z.eq_dec (params_date p) day); [contradiction|exact IH].
Qed.

Lemma generate_sale_spec (sale_date : datetime) (sales_data : list sale_params) (g : rng) :
  returns (generate_sale sales_person_ids sale_date sales_data) g
    (fun sales_data' =>
       exists p, sales_data' = sales_data ++ [p] /\ tuple_ok (ordinal sale_date) p).
Proof.
  unfold generate_sale.
  eapply returns_bind; [apply returns_choice, ids_not_empty|].
  intros person g1 Hperson.
  eapply returns_bind; [apply returns_uniform|].
  intros u g2 (k & Hk & ->).
  eapply returns_bind; [apply returns_choice; discriminate|].
  intros category g3 _.
  eapply returns_bind; [apply returns_choice; discriminate|].
  intros customer g4 _.
  apply returns_ret. eexists. split; [reflexivity|].
  repeat split; [exact Hperson|now apply amount_spec].
Qed.

Lemma generate_day_spec (start_date : datetime) (day_offset : Z)
      (sales_data : list sale_params) (g : rng) :
  returns (generate_day sales_person_ids start_date day_offset sales_data) g
    (fun sales_data' =>
       exists new, sales_data' = sales_data ++ new
                   /\ (5 <= List.length new <= 15)%nat
                   /\ Forall (tuple_ok (ordinal start_date + day_offset)) new).
Proof.
  unfold generate_day.
  eapply returns_bind; [apply (returns_randint 5 15); lia|].
  intros num_sales g1 Hn. cbv beta in Hn.
  eapply returns_weaken.
  - apply (returns_for_each
             (fun (done : list Z) s =>
                exists new, s = sales_data ++ new
                            /\ List.length new = List.length done
                            /\ Forall (tuple_ok (ordinal start_date + day_offset)) new)).
    + intros done x rest s g' _ (new & -> & Hlen & Hall).
      eapply returns_weaken; [apply generate_sale_spec|].
      intros s' (p & -> & Hp). exists (new ++ [p]).
      split; [now rewrite app_assoc|].
      split; [rewrite !length_app; simpl; lia|].
      apply Forall_app. split; [exact Hall|].
      constructor; [exact Hp|constructor].
    + exists []. split; [now rewrite app_nil_r|]. split; [reflexivity|constructor].
  - intros s (new & -> & Hlen & Hall). exists new.
    split; [reflexivity|]. split; [|exact Hall].
    rewrite Hlen, range_length. lia.
Qed.

Lemma generate_sales_data_days (now : datetime) (g : rng) :
  returns (generate_sales_data now sales_person_ids) g
    (days_generated (ordinal now - 90) (range 90)).
Proof.
  unfold generate_sales_data.
  apply (returns_for_each (days_generated (ordinal now - 90))).
  - intros done x rest s g' Hxs (Hall & Hcount & Hlen).
    assert (Hx : ~ In x done).
    { pose proof (range_NoDup 90) as Hnd. rewrite Hxs in Hnd.
      apply NoDup_remove_2 in Hnd. intros Hin. apply Hnd.
      apply in_or_app. now left. }
    eapply returns_weaken; [apply generate_day_spec|].
    intros s' (new & -> & Hn & Hnew). simpl ordinal in Hnew.
    assert (Hold : count_dated (ordinal now - 90 + x) s = 0%nat).
    { apply count_dated_none. eapply Forall_impl; [|exact Hall].
      intros p (_ & _ & d & Hd & Hp) E. rewrite Hp in E.
      assert (d = x) by lia. now subst d. }
    split; [|split].
    + apply Forall_app. split.
      * eapply Forall_impl; [|exact Hall].
        intros p (H1 & H2 & d & Hd & Hp). repeat split; auto.
        exists d. split; [apply in_or_app; now left|exact Hp].
      * eapply Forall_impl; [|exact Hnew].
        intros p (H1 & H2 & H3). repeat split; auto.
        exists x. split; [apply in_or_app; right; now left|exact H2].
    + intros d Hd. rewrite count_dated_app.
      apply in_app_or in Hd as [Hd|[<-|[]]].
      * rewrite (count_dated_none (ordinal now - 90 + d) new).
        -- specialize (Hcount d Hd). lia.
        -- eapply Forall_impl; [|exact Hnew].
           intros p (_ & Hp & _) E. rewrite Hp in E.
           assert (d = x) by lia. now subst d.
      * rewrite Hold, (count_dated_all (ordinal now - 90 + x) new).
        -- simpl. exact Hn.
        -- eapply Forall_impl; [|exact Hnew]. now intros p (_ & Hp & _).
    + rewrite !length_app. simpl. lia.
  - split; [constructor|]. split; [intros d []|simpl; lia].
Qed.

(** The generated tuples: every person is one of [sales_person_ids], every
    amount is as [amount_spec] says, every date is one of the 90 days
    before [now], each of which has between 5 and 15 tuples. *)
Lemma generate_sales_data_spec (now : datetime) (g : rng) :
  returns (generate_sales_data now sales_person_ids) g
    (fun sales_data =>
       Forall (fun p => In (params_person p) sales_person_ids
                        /\ amount_ok (params_amount p)
                        /\ ordinal now - 90 <= params_date p < ordinal now) sales_data
       /\ (forall d, 0 <= d < 90 ->
             (5 <= count_dated (ordinal now - 90 + d)%Z sales_data <= 15)%nat)
       /\ (List.length sales_data <= 1350)%nat).
Proof.
  eapply returns_weaken; [apply generate_sales_data_days|].
  intros sd (Hall & Hcount & Hlen). split; [|split].
  - eapply Forall_impl; [|exact Hall].
    intros p (H1 & H2 & d & Hd & Hp). repeat split; auto;
      apply range_In in Hd; lia.
  - intros d Hd. apply Hcount. now apply range_In.
  - rewrite range_length in Hlen. simpl in Hlen. lia.
Qed.

End Generation.

(** ** The tables *)

Section Tables.
Import Py Random Database Spec.

Lemma fold_max_nonneg (l : list Z) : 0 <= fold_right Z.max 0 l.
Proof. induction l as [|x l IH]; simpl; lia. Qed.

Lemma fold_max_app (l : list Z) (i : Z) :
  0 <= i -> fold_right Z.max 0 (l ++ [i]) = Z.max (fold_right Z.max 0 l) i.
Proof. intros Hi. induction l as [|x l IH]; simpl; lia. Qed.

Lemma next_rowid_positive {R : Type} (id : R -> Z) (t : table R) :
  1 <= next_rowid id t.
Proof. unfold next_rowid. pose proof (fold_max_nonneg (map id (rows t))). lia. Qed.

(** One [INSERT] that finds a free rowid. *)
Lemma insert_returns {R : Type} (id : R -> Z) (mk : Z -> R) (t : table R) :
  next_rowid id t <= max_rowid ->
  (forall i, id (mk i) = i) ->
  exists t', insert id mk t = Return t'
             /\ rows t' = rows t ++ [mk (next_rowid id t)]
             /\ next_rowid id t' = next_rowid id t + 1.
Proof.
  intros Hroom Hid. unfold insert.
  destruct (Z.leb_spec (next_rowid id t) max_rowid) as [_|H]; [|lia].
  eexists. split; [reflexivity|]. split; [reflexivity|].
  pose proof (next_rowid_positive id t) as Hpos.
  unfold next_rowid in *. simpl rows. simpl seq.
  rewrite map_app. simpl map. rewrite Hid, fold_max_app by lia. lia.
Qed.

(** [executemany] of a statement that only inserts. *)
Lemma executemany_insert {P R : Type} (id : R -> Z) (mk : P -> Z -> R)
      (stmt : P -> table R -> outcome (table R)) (ps : list P) :
  (forall p i, id (mk p i) = i) ->
  (forall p t, stmt p t = insert id (mk p) t) ->
  forall t,
    next_rowid id t + Z.of_nat (List.length ps) - 1 <= max_rowid ->
    exists t', executemany stmt ps t = Return t'
               /\ rows t' = rows t ++ inserted_rows mk (next_rowid id t) ps.
Proof.
  intros Hid Hstmt. induction ps as [|p ps IH]; intros t Hroom.
  - exists t. split; [reflexivity|]. simpl. now rewrite app_nil_r.
  - simpl List.length in Hroom.
    destruct (insert_returns id (mk p) t) as (t1 & H1 & Hrows1 & Hnext1);
      [lia|apply Hid|].
    destruct (IH t1) as (t2 & H2 & Hrows2); [lia|].
    exists t2. split.
    + simpl. rewrite Hstmt, H1. exact H2.
    + rewrite Hrows2, Hrows1, Hnext1, <- app_assoc. reflexivity.
Qed.

Lemma insert_sale_insert (p : sale_params) (t : table sale) :
  insert_sale p t = insert sale_id (sale_of_params p) t.
Proof. now destruct p as [[[[person day] amt] category] customer]. Qed.

Lemma sale_of_params_id (p : sale_params) (i : Z) : sale_id (sale_of_params p i) = i.
Proof. now destruct p as [[[[person day] amt] category] customer]. Qed.

Lemma sale_of_params_tuple (p : sale_params) (i : Z) :
  sale_tuple (sale_of_params p i) = p.
Proof. now destruct p as [[[[person day] amt] category] customer]. Qed.

Lemma person_of_params_id (p : sales_person_params) (i : Z) :
  sp_id (person_of_params p i) = i.
Proof. now destruct p as [[[[name email] region] hire_date] quota]. Qed.

Lemma person_of_params_email (p : sales_person_params) (i : Z) :
  sp_email (person_of_params p i) = params_email p.
Proof. now destruct p as [[[[name email] region] hire_date] quota]. Qed.

Lemma inserted_rows_length {P R : Type} (mk : P -> Z -> R) (ps : list P) (n : Z) :
  List.length (inserted_rows mk n ps) = List.length ps.
Proof. revert n. induction ps as [|p ps IH]; intros n; simpl; [reflexivity|now rewrite IH]. Qed.

Lemma inserted_sales_tuples (ps : list sale_params) (n : Z) :
  map sale_tuple (inserted_rows sale_of_params n ps) = ps.
Proof.
  revert n. induction ps as [|p ps IH]; intros n; simpl; [reflexivity|].
  now rewrite sale_of_params_tuple, IH.
Qed.

(** [executemany] on [sales]: the tuples become rows, in order. *)
Lemma executemany_insert_sale (ps : list sale_params) (t : table sale) :
  next_rowid sale_id t + Z.of_nat (List.length ps) - 1 <= max_rowid ->
  exists t', executemany insert_sale ps t = Return t'
             /\ rows t' = rows t ++ inserted_rows sale_of_params (next_rowid sale_id t) ps.
Proof.
  apply executemany_insert; [apply sale_of_params_id|apply insert_sale_insert].
Qed.

(** [executemany] on [sales_people]: tuples with distinct emails, none of
    them in the table yet, become rows. *)
Lemma executemany_insert_sales_person (ps : list sales_person_params) :
  NoDup (map params_email ps) ->
  forall t,
    (forall p r, In p ps -> In r (rows t) -> sp_email r <> params_email p) ->
    next_rowid sp_id t + Z.of_nat (List.length ps) - 1 <= max_rowid ->
    exists t', executemany insert_sales_person ps t = Return t'
               /\ rows t' = rows t ++ inserted_rows person_of_params (next_rowid sp_id t) ps.
Proof.
  induction ps as [|p ps IH]; intros Hnd t Hfresh Hroom.
  - exists t. split; [reflexivity|]. simpl. now rewrite app_nil_r.
  - simpl List.length in Hroom. simpl map in Hnd. inversion Hnd as [|e es Hp Hnd']; subst.
    destruct (insert_returns sp_id (person_of_params p) t) as (t1 & H1 & Hrows1 & Hnext1);
      [lia|apply person_of_params_id|].
    assert (Hstmt : insert_sales_person p t = Return t1).
    { rewrite <- H1. destruct p as [[[[name email] region] hire_date] quota].
      unfold insert_sales_person, person_of_params.
      destruct (existsb (fun r => str_eqb (sp_email r) email) (rows t)) eqn:E; [|reflexivity].
      apply existsb_exists in E as (r & Hr & Hre). apply str_eqb_eq in Hre.
      exfalso. exact (Hfresh _ r (or_introl eq_refl) Hr Hre). }
    destruct (IH Hnd' t1) as (t2 & H2 & Hrows2).
    + intros q r Hq Hr. rewrite Hrows1 in Hr. apply in_app_or in Hr as [Hr|[<-|[]]].
      * apply Hfresh; [now right|exact Hr].
      * rewrite person_of_params_email. intros E. apply Hp. rewrite E.
        now apply in_map.
    + lia.
    + exists t2. split.
      * simpl. rewrite Hstmt. exact H2.
      * rewrite Hrows2, Hrows1, Hnext1, <- app_assoc. reflexivity.
Qed.

Lemma roster_emails_distinct : NoDup (map params_email sales_people_roster).
Proof.
  repeat constructor; simpl; intuition discriminate.
Qed.

End Tables.

(** ** init_database *)

Section Seeding.
Import Py Random Database Spec.

Variable amount_ok : Float.float -> Prop.
Hypothesis amount_spec :
  forall k, 0 <= k < 2 ^ 53 ->
    amount_ok (Float.round
                 (Float.add (Float.of_Z 100)
                    (Float.mul (Float.sub (Float.of_Z 5000) (Float.of_Z 100))
                       (Float.ldexp k (-53)))) 2).

Lemma table_rows_create {R : Type} (t : option (table R)) :
  rows (create_table_if_not_exists t) = table_rows t.
Proof. now destruct t. Qed.

(** A seedable database is seeded: the roster becomes the rows of
    [sales_people], and the generated tuples are appended to [sales]. *)
Lemma init_database_seeds (now : datetime) (db : database) (g : rng) :
  seedable db = true ->
  returns (init_database now db) g
    (fun db' =>
       exists sales_data,
         table_rows (sales_people db')
         = inserted_rows person_of_params
             (next_rowid sp_id (create_table_if_not_exists (sales_people db)))
             sales_people_roster
         /\ table_rows (sales db')
            = table_rows (sales db)
              ++ inserted_rows sale_of_params
                   (next_rowid sale_id (create_table_if_not_exists (sales db)))
                   sales_data
         /\ Forall (fun p => In (params_person p) (map sp_id (table_rows (sales_people db')))
                             /\ amount_ok (params_amount p)
                             /\ ordinal now - 90 <= params_date p < ordinal now) sales_data
         /\ (forall d, 0 <= d < 90 ->
               (5 <= count_dated (ordinal now - 90 + d)%Z sales_data <= 15)%nat)
         /\ sales db' <> None).
Proof.
  unfold seedable. intros H.
  apply andb_true_iff in H as [H Hsales]. apply andb_true_iff in H as [Hempty Hpeople].
  apply Z.leb_le in Hsales, Hpeople.
  unfold init_database. rewrite Hempty.
  apply Z.eqb_eq in Hempty.
  set (people := create_table_if_not_exists (sales_people db)) in *.
  set (sales_table := create_table_if_not_exists (sales db)) in *.
  assert (Hrows : rows people = []) by (destruct (rows people); [reflexivity|discriminate]).
  destruct (executemany_insert_sales_person sales_people_roster roster_emails_distinct people)
    as (people' & Hins & Hrows').
  { intros p r _ Hr. rewrite Hrows in Hr. destruct Hr. }
  { simpl List.length. lia. }
  rewrite Hrows, app_nil_l in Hrows'.
  apply (returns_bind _ _ _
           (fun t => rows t = inserted_rows person_of_params (next_rowid sp_id people)
                                sales_people_roster));
    [exact (returns_lift _ _ _ _ Hins Hrows')|].
  intros people1 g1 Hrows1.
  eapply returns_bind.
  { apply (generate_sales_data_spec amount_ok amount_spec).
    rewrite Hrows1. discriminate. }
  cbv beta. intros sales_data g2 (Hall & Hcount & Hlen).
  destruct (executemany_insert_sale sales_data sales_table) as (sales' & Hins' & Hsrows); [lia|].
  apply (returns_bind _ _ _
           (fun t => rows t = rows sales_table
                              ++ inserted_rows sale_of_params (next_rowid sale_id sales_table)
                                   sales_data));
    [exact (returns_lift _ _ _ _ Hins' Hsrows)|].
  intros sales1 g3 Hsrows1. apply returns_ret.
  exists sales_data. simpl sales_people. simpl sales. simpl table_rows.
  split; [exact Hrows1|]. split; [|split; [|split]]; [|assumption|assumption|discriminate].
  rewrite Hsrows1. unfold sales_table. now rewrite table_rows_create.
Qed.

(** A database whose [sales_people] holds a row is left as it is. *)
Lemma init_database_skips (now : datetime) (db : database) (g : rng) :
  table_rows (sales_people db) <> [] ->
  init_database now db g
  = Return ({| sales_people := sales_people db;
               sales := Some (create_table_if_not_exists (sales db)) |}, g).
Proof.
  intros H. unfold init_database.
  destruct (sales_people db) as [t|] eqn:E; [|now elim H].
  simpl in *. destruct (rows t); [now elim H|]. reflexivity.
Qed.

End Seeding.

(** ** The bootstrapper *)

Section Bootstrapper.
Import Py Random Database Spec.

Lemma count_rows_dated_tuples (day : date) (l : list sale) :
  count_rows_dated day l = count_dated day (map sale_tuple l).
Proof. unfold count_rows_dated, count_dated. now rewrite map_map. Qed.

(** C1: when [sales_people] holds a row, [init_database] returns without
    inserting into either table, whatever [sales] holds (it draws no random
    number either); and a second call on a path that was empty before the
    first leaves the database of the first call, with its 8 sales people. *)
Theorem init_database_idempotent :
  (forall (now : datetime) (db : database) (g : rng),
      table_rows (sales_people db) <> [] ->
      exists db', init_database now db g = Return (db', g)
                  /\ table_rows (sales_people db') = table_rows (sales_people db)
                  /\ table_rows (sales db') = table_rows (sales db))
  /\ (forall (now1 now2 : datetime) (g : rng),
         exists db1 g1,
           init_database now1 empty_database g = Return (db1, g1)
           /\ List.length (table_rows (sales_people db1)) = 8%nat
           /\ init_database now2 db1 g1 = Return (db1, g1)).
Proof.
  split.
  - intros now db g H. eexists. split; [now apply init_database_skips|].
    simpl. split; [reflexivity|now destruct (sales db)].
  - intros now1 now2 g.
    destruct (init_database_seeds (fun _ => True) (fun _ _ => I) now1 empty_database g eq_refl)
      as (db1 & g1 & H1 & sales_data & Hpeople & _ & _ & _ & Hsome).
    exists db1, g1. split; [exact H1|]. split.
    + rewrite Hpeople. reflexivity.
    + rewrite init_database_skips by (rewrite Hpeople; discriminate).
      destruct db1 as [people1 [sales1|]]; [reflexivity|now elim Hsome].
Qed.

(** C2: every row that [init_database] adds to [sales] carries the id of
    one of the 8 rows it has just inserted into [sales_people]. *)
Theorem init_database_referential_integrity (now : datetime) (db : database) (g : rng) :
  seedable db = true ->
  returns (init_database now db) g
    (fun db' =>
       exists generated,
         table_rows (sales db') = table_rows (sales db) ++ generated
         /\ table_rows (sales_people db')
            = inserted_rows person_of_params
                (next_rowid sp_id (create_table_if_not_exists (sales_people db)))
                sales_people_roster
         /\ Forall (fun s => In (sales_person_id s)
                               (map sp_id (table_rows (sales_people db')))) generated).
Proof.
  intros H.
  eapply returns_weaken;
    [exact (init_database_seeds (fun _ => True) (fun _ _ => I) now db g H)|].
  intros db' (sales_data & Hpeople & Hsales & Hall & _).
  eexists. split; [exact Hsales|]. split; [exact Hpeople|].
  apply Forall_forall. intros s Hs.
  rewrite Forall_forall in Hall.
  destruct (Hall (sale_tuple s)) as (Hin & _).
  - rewrite <- (inserted_sales_tuples sales_data
                  (next_rowid sale_id (create_table_if_not_exists (sales db)))).
    now apply in_map.
  - exact Hin.
Qed.

(** C3: the rows that [init_database] adds to [sales] are dated within the
    90 days that start 90 days before the call, and each of these days has
    between 5 and 15 of them. *)
Theorem init_database_daily_counts (now : datetime) (db : database) (g : rng) :
  seedable db = true ->
  returns (init_database now db) g
    (fun db' =>
       exists generated,
         table_rows (sales db') = table_rows (sales db) ++ generated
         /\ Forall (fun s => ordinal now - 90 <= sale_date s < ordinal now) generated
         /\ forall d, 0 <= d < 90 ->
              (5 <= count_rows_dated (ordinal now - 90 + d)%Z generated <= 15)%nat).
Proof.
  intros H.
  eapply returns_weaken;
    [exact (init_database_seeds (fun _ => True) (fun _ _ => I) now db g H)|].
  intros db' (sales_data & _ & Hsales & Hall & Hcount & _).
  eexists. split; [exact Hsales|].
  set (n := next_rowid sale_id (create_table_if_not_exists (sales db))).
  split.
  - apply Forall_forall. intros s Hs. rewrite Forall_forall in Hall.
    destruct (Hall (sale_tuple s)) as (_ & _ & Hd); [|exact Hd].
    rewrite <- (inserted_sales_tuples sales_data n). now apply in_map.
  - intros d Hd. rewrite count_rows_dated_tuples, inserted_sales_tuples.
    now apply Hcount.
Qed.

Lemma init_database_idempotent_witness :
  exists db', init_database sample_now sample_seeded sample_tape = Return (db', sample_tape)
              /\ table_rows (sales_people db') = table_rows (sales_people sample_seeded)
              /\ table_rows (sales db') = table_rows (sales sample_seeded).
Proof.
  apply (proj1 init_database_idempotent sample_now sample_seeded sample_tape).
  discriminate.
Defined.

Lemma init_database_referential_integrity_witness :
  returns (init_database sample_now empty_database) sample_tape
    (fun db' =>
       exists generated,
         table_rows (sales db') = table_rows (sales empty_database) ++ generated
         /\ table_rows (sales_people db')
            = inserted_rows person_of_params
                (next_rowid sp_id (create_table_if_not_exists (sales_people empty_database)))
                sales_people_roster
         /\ Forall (fun s => In (sales_person_id s)
                               (map sp_id (table_rows (sales_people db')))) generated).
Proof.
  apply (init_database_referential_integrity sample_now empty_database sample_tape).
  reflexivity.
Defined.

Lemma init_database_daily_counts_witness :
  returns (init_database sample_now empty_database) sample_tape
    (fun db' =>
       exists generated,
         table_rows (sales db') = table_rows (sales empty_database) ++ generated
         /\ Forall (fun s => ordinal sample_now - 90 <= sale_date s < ordinal sample_now) generated
         /\ forall d, 0 <= d < 90 ->
              (5 <= count_rows_dated (ordinal sample_now - 90 + d)%Z generated <= 15)%nat).
Proof.
  apply (init_database_daily_counts sample_now empty_database sample_tape).
  reflexivity.
Defined.

End Bootstrapper.

(** ** Floating-point amounts *)

Section FloatFacts.
Import Spec.

Lemma digits2_bounds (p : positive) :
  2 ^ (Zpos (digits2_pos p) - 1) <= Zpos p < 2 ^ Zpos (digits2_pos p).
Proof.
  induction p as [p IH|p IH|]; simpl digits2_pos.
  - rewrite Pos2Z.inj_succ, Z.pow_succ_r by lia.
    replace (Z.succ (Zpos (digits2_pos p)) - 1) with (Z.succ (Zpos (digits2_pos p) - 1)) by lia.
    rewrite Z.pow_succ_r by lia. lia.
  - rewrite Pos2Z.inj_succ, Z.pow_succ_r by lia.
    replace (Z.succ (Zpos (digits2_pos p)) - 1) with (Z.succ (Zpos (digits2_pos p) - 1)) by lia.
    rewrite Z.pow_succ_r by lia. lia.
  - simpl. lia.
Qed.

Lemma digits2_unique (p : positive) (d : Z) :
  2 ^ (d - 1) <= Zpos p < 2 ^ d -> Zpos (digits2_pos p) = d.
Proof.
  intros [Hlo Hhi]. pose proof (digits2_bounds p) as [Hlo' Hhi'].
  assert (0 < d).
  { destruct (Z.ltb_spec 0 d); [assumption|].
    assert (2 ^ d <= 1); [|lia].
    destruct (Z.eq_dec d 0) as [->|]; [simpl; lia|].
    rewrite Z.pow_neg_r by lia. lia. }
  assert (Zpos (digits2_pos p) - 1 < d).
  { apply (Z.pow_lt_mono_r_iff 2); lia. }
  assert (d - 1 < Zpos (digits2_pos p)).
  { apply (Z.pow_lt_mono_r_iff 2); lia. }
  lia.
Qed.

Lemma iter_pos_nat {A : Type} (f : A -> A) (p : positive) (x : A) :
  iter_pos f p x = Nat.iter (Pos.to_nat p) f x.
Proof.
  revert x. induction p as [p IH|p IH|]; intros x; simpl iter_pos.
  - rewrite !IH, Pos2Nat.inj_xI. 
    replace (2 * Pos.to_nat p)%nat with (Pos.to_nat p + Pos.to_nat p)%nat by lia.
    rewrite Nat.iter_succ_r, Nat.iter_add. reflexivity.
  - rewrite !IH, Pos2Nat.inj_xO.
    replace (2 * Pos.to_nat p)%nat with (Pos.to_nat p + Pos.to_nat p)%nat by lia.
    rewrite Nat.iter_add. reflexivity.
  - reflexivity.
Qed.

Lemma shr_1_m (x : shr_record) :
  0 <= shr_m x -> shr_m (shr_1 x) = shr_m x / 2.
Proof.
  destruct x as [m r s]. simpl shr_m. intros Hm.
  rewrite <- Z.div2_div. destruct m as [|[p|p|]|p]; try reflexivity; lia.
Qed.

Lemma shr_1_exact (x : shr_record) :
  0 <= shr_m x -> shr_r x = false -> shr_s x = false -> Z.even (shr_m x) = true ->
  shr_r (shr_1 x) = false /\ shr_s (shr_1 x) = false.
Proof.
  destruct x as [m r s]. simpl. intros Hm -> -> He.
  destruct m as [|[p|p|]|p]; simpl in *; try discriminate; auto; lia.
Qed.

Lemma shr_iter (x0 : shr_record) (k : nat) :
  0 <= shr_m x0 ->
  let x := Nat.iter k shr_1 x0 in
  shr_m x = shr_m x0 / 2 ^ Z.of_nat k
  /\ (shr_m x0 mod 2 ^ Z.of_nat k = 0 -> shr_r x0 = false -> shr_s x0 = false ->
      shr_r x = false /\ shr_s x = false).
Proof.
  intros Hm. set (m := shr_m x0) in *. induction k as [|k IH].
  - simpl. rewrite Z.div_1_r. auto.
  - cbv zeta in *. rewrite Nat.iter_succ. destruct IH as [IHm IHx].
    set (x := Nat.iter k shr_1 _) in *.
    assert (Hp : 0 < 2 ^ Z.of_nat k) by (apply Z.pow_pos_nonneg; lia).
    assert (Hx : 0 <= shr_m x) by (rewrite IHm; apply Z.div_pos; lia).
    rewrite Nat2Z.inj_succ, Z.pow_succ_r by lia.
    split.
    + rewrite shr_1_m, IHm by exact Hx.
      rewrite Z.div_div by lia. f_equal. lia.
    + intros Hmod Hr0 Hs0.
      assert (Hdiv : m = 2 ^ Z.of_nat k * (2 * (m / (2 * 2 ^ Z.of_nat k)))).
      { pose proof (Z.div_mod m (2 * 2 ^ Z.of_nat k)). lia. }
      assert (Hmod' : m mod 2 ^ Z.of_nat k = 0).
      { rewrite Hdiv, Z.mul_comm. apply Z.mod_mul. lia. }
      destruct (IHx Hmod' Hr0 Hs0) as [Hr Hs].
      apply shr_1_exact; try assumption.
      rewrite IHm. rewrite Hdiv at 1. rewrite Z.mul_comm, Z.div_mul by lia.
      rewrite Z.even_mul. reflexivity.
Qed.

Lemma loc_of_shr_record_exact (x : shr_record) :
  loc_of_shr_record x = loc_Exact <-> shr_r x = false /\ shr_s x = false.
Proof. destruct x as [m [|] [|]]; simpl; split; intros H; try discriminate; auto; destruct H; discriminate. Qed.

Lemma shr_spec (x0 : shr_record) (e n : Z) :
  0 <= shr_m x0 -> 0 <= n ->
  let r := shr x0 e n in
  snd r = e + n
  /\ shr_m (fst r) = shr_m x0 / 2 ^ n
  /\ (shr_m x0 mod 2 ^ n = 0 -> loc_of_shr_record x0 = loc_Exact ->
      loc_of_shr_record (fst r) = loc_Exact).
Proof.
  intros Hm Hn. destruct n as [|p|p]; [| |lia].
  - simpl. rewrite Z.div_1_r. split; [lia|]. split; auto.
  - cbv zeta. unfold shr. simpl fst. simpl snd. rewrite iter_pos_nat.
    destruct (shr_iter x0 (Pos.to_nat p) Hm) as [H1 H2].
    rewrite positive_nat_Z in H1, H2.
    split; [reflexivity|]. split; [exact H1|].
    intros Hmod Hloc. apply loc_of_shr_record_exact in Hloc. destruct Hloc as [Hr0 Hs0].
    apply loc_of_shr_record_exact. exact (H2 Hmod Hr0 Hs0).
Qed.

Lemma shr_record_of_loc_m (m : Z) (l : location) : shr_m (shr_record_of_loc m l) = m.
Proof. destruct l as [|[| |]]; reflexivity. Qed.

Lemma loc_of_shr_record_of_loc (m : Z) (l : location) :
  loc_of_shr_record (shr_record_of_loc m l) = l.
Proof. destruct l as [|[| |]]; reflexivity. Qed.

Lemma round_nearest_even_bounds (m : Z) (l : location) :
  m <= round_nearest_even m l <= m + 1.
Proof.
  destruct l as [|[| |]]; simpl; try lia. destruct (Z.even m); lia.
Qed.

Lemma fexp_normal (e : Z) : -1021 <= e -> fexp 53 1024 e = e - 53.
Proof. unfold fexp, emin. lia. Qed.

(** Rounding a mantissa of at least 53 bits, with what is known of the
    digits beyond it ([l]): the quotient by the power of two that leaves 53
    bits, or its successor when something was cut off. *)
Lemma binary_round_aux_spec (mx : positive) (ex : Z) (l : location) :
  let d := Zpos (digits2_pos mx) in
  let n := d - 53 in
  let q := Zpos mx / 2 ^ n in
  let exact := Zpos mx mod 2 ^ n = 0 /\ l = loc_Exact in
  53 <= d -> -1074 <= ex -> d + ex <= 1000 ->
  exists m' e',
    binary_round_aux 53 1024 false (Zpos mx) ex l = S754_finite false m' e'
    /\ 2 ^ 52 <= Zpos m' < 2 ^ 53
    /\ ((e' = ex + n /\ Zpos m' = q)
        \/ (e' = ex + n /\ Zpos m' = q + 1 /\ ~ exact)
        \/ (e' = ex + n + 1 /\ Zpos m' = 2 ^ 52 /\ q + 1 = 2 ^ 53 /\ ~ exact)).
Proof.
  intros d n q exact Hd Hex Hov.
  pose proof (digits2_bounds mx) as [Hlo Hhi]. fold d in Hlo, Hhi.
  assert (Hn : 0 <= n) by (unfold n; lia).
  assert (Hpn : 0 < 2 ^ n) by (apply Z.pow_pos_nonneg; lia).
  assert (Hq : 2 ^ 52 <= q < 2 ^ 53).
  { unfold q. replace d with (53 + n) in Hhi by (unfold n; lia).
    replace (d - 1) with (52 + n) in Hlo by (unfold n; lia).
    rewrite Z.pow_add_r in Hlo, Hhi by lia. split.
    - apply Z.div_le_lower_bound; lia.
    - apply Z.div_lt_upper_bound; lia. }
  unfold binary_round_aux, shr_fexp.
  change (Zdigits2 (Zpos mx)) with d.
  rewrite fexp_normal by lia.
  replace (d + ex - 53 - ex) with n by (unfold n; lia).
  assert (Hm0 : 0 <= shr_m (shr_record_of_loc (Zpos mx) l))
    by (rewrite shr_record_of_loc_m; lia).
  destruct (shr_spec (shr_record_of_loc (Zpos mx) l) ex n Hm0 Hn) as (He1 & Hm1 & Hexact).
  rewrite shr_record_of_loc_m in Hm1, Hexact. rewrite loc_of_shr_record_of_loc in Hexact.
  destruct (shr _ ex n) as [x e1]. simpl fst in *. simpl snd in *. fold q in Hm1.
  pose proof (round_nearest_even_bounds (shr_m x) (loc_of_shr_record x)) as Hrne.
  set (m1 := round_nearest_even (shr_m x) (loc_of_shr_record x)) in *.
  rewrite Hm1 in Hrne.
  assert (Hup : m1 = q + 1 -> ~ exact).
  { intros E [Hmod Hl]. unfold m1 in E. rewrite (Hexact Hmod Hl), Hm1 in E. simpl in E. lia. }
  destruct m1 as [|p1|p1] eqn:Em1; [lia| |lia].
  change (shr_record_of_loc (Zpos p1) loc_Exact)
    with {| shr_m := Zpos p1; shr_r := false; shr_s := false |}.
  destruct (Z.eq_dec (Zpos p1) (2 ^ 53)) as [Ecarry|Ecarry].
  - (* the mantissa has overflowed to 2^53 *)
    assert (Hd1 : Zdigits2 (Zpos p1) = 54).
    { simpl Zdigits2. apply digits2_unique. rewrite Ecarry. simpl. lia. }
    rewrite Hd1, fexp_normal by lia.
    replace (54 + e1 - 53 - e1) with 1 by lia.
    injection Ecarry as ->. simpl.
    destruct (Z.leb_spec (e1 + 1) 971) as [_|H]; [|lia].
    eexists _, _. split; [reflexivity|]. split; [simpl; lia|].
    right. right. split; [lia|]. split; [reflexivity|]. split; [lia|].
    apply Hup. simpl in *. lia.
  - assert (Hd1 : Zdigits2 (Zpos p1) = 53).
    { simpl Zdigits2. apply digits2_unique. simpl. lia. }
    rewrite Hd1, fexp_normal by lia.
    replace (53 + e1 - 53 - e1) with 0 by lia.
    simpl shr. cbv iota beta. simpl shr_m.
    destruct (Z.leb_spec e1 (1024 - 53)) as [_|H]; [|lia].
    exists p1, e1. split; [reflexivity|]. split; [lia|].
    destruct (Z.eq_dec (Zpos p1) q) as [E|E]; [left; lia|].
    right. left. split; [lia|]. split; [lia|]. apply Hup. lia.
Qed.

(** The same, between two multiples of the grid. *)
Lemma binary_round_aux_between_loc (mx : positive) (ex A B : Z) (l : location) :
  let d := Zpos (digits2_pos mx) in
  let n := d - 53 in
  53 <= d -> -1074 <= ex -> d + ex <= 1000 ->
  A * 2 ^ n <= Zpos mx <= B * 2 ^ n ->
  (l <> loc_Exact -> Zpos mx < B * 2 ^ n) ->
  exists m' e',
    binary_round_aux 53 1024 false (Zpos mx) ex l = S754_finite false m' e'
    /\ 2 ^ 52 <= Zpos m' < 2 ^ 53
    /\ ((e' = ex + n /\ A <= Zpos m' <= B)
        \/ (e' = ex + n + 1 /\ Zpos m' = 2 ^ 52 /\ A <= 2 ^ 53 <= B)).
Proof.
  intros d n Hd Hex Hov [HA HB] Hstrict.
  destruct (binary_round_aux_spec mx ex l Hd Hex Hov) as (m' & e' & Hr & Hm & Hcases).
  fold d in Hcases. fold n in Hcases.
  assert (Hpn : 0 < 2 ^ n) by (apply Z.pow_pos_nonneg; unfold n; lia).
  pose proof (Z.div_mod (Zpos mx) (2 ^ n) ltac:(lia)) as Hdm.
  pose proof (Z.mod_pos_bound (Zpos mx) (2 ^ n) Hpn) as Hmod.
  set (q := Zpos mx / 2 ^ n) in *. set (r := Zpos mx mod 2 ^ n) in *.
  assert (HAq : A <= q) by nia.
  assert (HqB : q <= B) by nia.
  assert (HqB' : ~ (r = 0 /\ l = loc_Exact) -> q + 1 <= B).
  { intros Hne. destruct (Z.eq_dec r 0) as [Hr0|Hr0]; [|nia].
    assert (Hl : l <> loc_Exact) by tauto. specialize (Hstrict Hl). nia. }
  exists m', e'. split; [exact Hr|]. split; [exact Hm|].
  destruct Hcases as [[He Hq]|[(He & Hq & Hne)|(He & Hq & Hc & Hne)]].
  - left. lia.
  - left. specialize (HqB' Hne). lia.
  - right. specialize (HqB' Hne). lia.
Qed.

Lemma binary_round_aux_between (mx : positive) (ex A B : Z) :
  let d := Zpos (digits2_pos mx) in
  let n := d - 53 in
  53 <= d -> -1074 <= ex -> d + ex <= 1000 ->
  A * 2 ^ n <= Zpos mx <= B * 2 ^ n ->
  exists m' e',
    binary_round_aux 53 1024 false (Zpos mx) ex loc_Exact = S754_finite false m' e'
    /\ 2 ^ 52 <= Zpos m' < 2 ^ 53
    /\ ((e' = ex + n /\ A <= Zpos m' <= B)
        \/ (e' = ex + n + 1 /\ Zpos m' = 2 ^ 52 /\ A <= 2 ^ 53 <= B)).
Proof.
  intros d n Hd Hex Hov HAB.
  apply binary_round_aux_between_loc; try assumption. congruence.
Qed.

Lemma pos_iter_xO (m d : positive) : Zpos (Pos.iter xO m d) = Zpos m * 2 ^ Zpos d.
Proof.
  induction d as [|d IH] using Pos.peano_ind.
  - simpl. lia.
  - rewrite Pos.iter_succ, Pos2Z.inj_xO, IH, Pos2Z.inj_succ, Z.pow_succ_r by lia. lia.
Qed.

Lemma shl_align_spec (mx : positive) (ex ex' : Z) :
  ex' <= ex ->
  snd (shl_align mx ex ex') = ex'
  /\ Zpos (fst (shl_align mx ex ex')) = Zpos mx * 2 ^ (ex - ex').
Proof.
  intros H. unfold shl_align. destruct (ex' - ex) as [|p|p] eqn:E; [|lia|].
  - simpl. replace (ex - ex') with 0 by lia. simpl. lia.
  - simpl fst. simpl snd. rewrite pos_iter_xO.
    replace (ex - ex') with (Zpos p) by lia. auto.
Qed.

Lemma shl_align_id (mx : positive) (ex ex' : Z) :
  ex <= ex' -> shl_align mx ex ex' = (mx, ex).
Proof.
  intros H. unfold shl_align. destruct (ex' - ex) as [|p|p] eqn:E; [reflexivity|reflexivity|lia].
Qed.

(** [j * 2^-53] is a float: it is normalised without rounding. *)
Lemma ldexp_53_spec (j : Z) :
  1 <= j < 2 ^ 53 ->
  exists mr er,
    Float.ldexp j (-53) = S754_finite false mr er
    /\ 2 ^ 52 <= Zpos mr < 2 ^ 53
    /\ -105 <= er <= -53.
Proof.
  intros Hj. destruct j as [|pj|pj]; [lia| |lia].
  unfold Float.ldexp, binary_normalize, binary_round, Float.prec, Float.emax.
  pose proof (digits2_bounds pj) as [Hlo Hhi].
  set (dj := Zpos (digits2_pos pj)) in *.
  assert (Hdj : 1 <= dj <= 53).
  { split; [unfold dj; lia|].
    destruct (Z.leb_spec dj 53); [assumption|].
    assert (2 ^ 53 <= 2 ^ (dj - 1)) by (apply Z.pow_le_mono_r; lia). lia. }
  rewrite fexp_normal by lia.
  destruct (shl_align_spec pj (-53) (dj + -53 - 53) ltac:(lia)) as [Hez Hmz].
  destruct (shl_align pj (-53) (dj + -53 - 53)) as [mz ez]. simpl fst in *. simpl snd in *.
  replace (-53 - (dj + -53 - 53)) with (53 - dj) in Hmz by lia.
  assert (Hmzb : 2 ^ 52 <= Zpos mz < 2 ^ 53).
  { assert (E52 : 2 ^ 52 = 2 ^ (dj - 1) * 2 ^ (53 - dj))
      by (rewrite <- Z.pow_add_r by lia; f_equal; lia).
    assert (E53 : 2 ^ 53 = 2 ^ dj * 2 ^ (53 - dj))
      by (rewrite <- Z.pow_add_r by lia; f_equal; lia).
    assert (0 < 2 ^ (53 - dj)) by (apply Z.pow_pos_nonneg; lia).
    rewrite Hmz, E52, E53. clear E52 E53 Hj Hmz.
    split; [apply Z.mul_le_mono_nonneg_r; lia|apply Z.mul_lt_mono_pos_r; lia]. }
  assert (Hdz : Zpos (digits2_pos mz) = 53) by (apply digits2_unique; simpl; lia).
  destruct (binary_round_aux_spec mz ez loc_Exact) as (m' & e' & Hr & Hm & Hcases);
    [lia|lia|lia|].
  rewrite Hdz in Hcases. simpl Z.sub in Hcases. rewrite Z.pow_0_r, Z.div_1_r, Z.mod_1_r in Hcases.
  exists m', e'. split; [exact Hr|]. split; [exact Hm|].
  destruct Hcases as [[He Hq]|[(He & Hq & Hne)|(He & Hq & Hc & Hne)]];
    [lia|exfalso; apply Hne; split; reflexivity..].
Qed.

Lemma sub_5000_100 :
  Float.sub (Float.of_Z 5000) (Float.of_Z 100) = S754_finite false 5387606976102400 (-40).
Proof. vm_compute. reflexivity. Qed.

Lemma of_Z_100 : Float.of_Z 100 = S754_finite false 7036874417766400 (-46).
Proof. vm_compute. reflexivity. Qed.

Lemma pow2_split (a b : Z) : 0 <= a -> 0 <= b -> 2 ^ (a + b) = 2 ^ a * 2 ^ b.
Proof. intros. apply Z.pow_add_r; assumption. Qed.

Lemma pow2_pos (a : Z) : 0 <= a -> 0 < 2 ^ a.
Proof. intros. apply Z.pow_pos_nonneg; lia. Qed.

Lemma pow2_digits (x d b : Z) : 2 ^ (d - 1) <= x -> x < 2 ^ b -> 0 <= b -> d <= b.
Proof.
  intros Hlo Hhi Hb. destruct (Z.leb_spec d b) as [|Hlt]; [assumption|].
  assert (2 ^ b <= 2 ^ (d - 1)) by (apply Z.pow_le_mono_r; lia). lia.
Qed.

Lemma pow2_digits_ge (x d b : Z) : x < 2 ^ d -> 2 ^ b <= x -> 0 <= d -> b < d.
Proof.
  intros Hhi Hlo Hd. destruct (Z.ltb_spec b d) as [|Hle]; [assumption|].
  assert (2 ^ d <= 2 ^ b) by (apply Z.pow_le_mono_r; lia). lia.
Qed.

(** [4900.0 * r] for a normal [r] of [(0, 1)]: at most 4900. *)
Lemma mul_4900_spec (mr : positive) (er : Z) :
  2 ^ 52 <= Zpos mr < 2 ^ 53 -> -105 <= er <= -53 ->
  exists mp ep,
    Float.mul (S754_finite false 5387606976102400 (-40)) (S754_finite false mr er)
    = S754_finite false mp ep
    /\ 2 ^ 52 <= Zpos mp < 2 ^ 53
    /\ -93 <= ep <= -40
    /\ Zpos mp <= 4900 * 2 ^ (- ep).
Proof.
  intros Hmr Her. unfold Float.mul, SFmul, Float.prec, Float.emax. simpl xorb.
  set (mx := (5387606976102400 * mr)%positive).
  assert (Hmx : Zpos mx = 4900 * 2 ^ 40 * Zpos mr) by (unfold mx; rewrite Pos2Z.inj_mul; reflexivity).
  pose proof (digits2_bounds mx) as [Hlo Hhi].
  set (d := Zpos (digits2_pos mx)) in *.
  assert (Hd : 105 <= d <= 106).
  { split.
    - enough (104 < d) by lia. apply (pow2_digits_ge (Zpos mx)); [assumption| |unfold d; lia].
      rewrite Hmx. change (2 ^ 104) with (2 ^ 52 * 2 ^ 52).
      apply Z.mul_le_mono_nonneg; lia.
    - apply (pow2_digits (Zpos mx)); [assumption| |lia].
      rewrite Hmx. change (2 ^ 106) with (2 ^ 53 * 2 ^ 53).
      apply Z.mul_lt_mono_nonneg; lia. }
  set (g := -40 + er + (d - 53)).
  destruct (binary_round_aux_between mx (-40 + er) 0 (4900 * 2 ^ (- g)))
    as (m' & e' & Hr & Hm & Hcases); fold d; [lia|lia|lia| |].
  { split; [lia|].
    rewrite <- Z.mul_assoc, <- pow2_split by (unfold g; lia).
    replace (- g + (d - 53)) with (40 + - er) by (unfold g; lia).
    rewrite pow2_split, Hmx by lia.
    assert (2 ^ 53 <= 2 ^ (- er)) by (apply Z.pow_le_mono_r; lia).
    assert (0 < 2 ^ 40) by (apply pow2_pos; lia).
    rewrite Z.mul_assoc. apply Z.mul_le_mono_nonneg_l; lia. }
  fold d in Hcases. fold g in Hcases. exists m', e'. split; [exact Hr|]. split; [exact Hm|].
  destruct Hcases as [[He HB]|(He & Hq & HB)].
  - subst e'. split; [unfold g; lia|tauto].
  - assert (Hg : g <= -41).
    { destruct (Z.eq_dec g (-40)) as [E|]; [|unfold g in *; lia].
      rewrite E in HB. simpl in HB. lia. }
    subst e'. split; [unfold g in *; lia|].
    replace (- g) with (Z.succ (- (g + 1))) in HB by lia.
    rewrite Z.pow_succ_r in HB by lia. rewrite Hq. fold d. fold g.
    change (2 ^ 53) with (2 * 2 ^ 52) in HB. lia.
Qed.

(** [100.0 + p] for a normal [p] of at most 4900: between 100 and 5000. *)
Lemma add_100_spec (mp : positive) (ep : Z) :
  2 ^ 52 <= Zpos mp < 2 ^ 53 -> -93 <= ep <= -40 -> Zpos mp <= 4900 * 2 ^ (- ep) ->
  exists m e,
    Float.add (S754_finite false 7036874417766400 (-46)) (S754_finite false mp ep)
    = S754_finite false m e
    /\ 2 ^ 52 <= Zpos m < 2 ^ 53
    /\ -46 <= e <= -40
    /\ 100 * 2 ^ (- e) <= Zpos m <= 5000 * 2 ^ (- e).
Proof.
  intros Hmp Hep Hval. unfold Float.add, SFadd, Float.prec, Float.emax. simpl cond_Zopp.
  set (ez := Z.min (-46) ep).
  assert (Hez : -93 <= ez <= -46 /\ ez <= ep) by (unfold ez; lia).
  destruct (shl_align_spec 7036874417766400 (-46) ez ltac:(lia)) as [_ Ha].
  destruct (shl_align_spec mp ep ez ltac:(lia)) as [_ Hb].
  set (pa := fst (shl_align 7036874417766400 (-46) ez)) in *.
  set (pb := fst (shl_align mp ep ez)) in *.
  change (Zpos pa + Zpos pb) with (Zpos (pa + pb)).
  set (M := (pa + pb)%positive).
  assert (HM : Zpos M = Zpos pa + Zpos pb) by reflexivity.
  assert (Ha' : Zpos pa = 100 * 2 ^ (- ez)).
  { rewrite Ha. change 7036874417766400 with (100 * 2 ^ 46).
    rewrite <- Z.mul_assoc, <- pow2_split by lia. do 2 f_equal. lia. }
  assert (Hb' : Zpos pb <= 4900 * 2 ^ (- ez)).
  { rewrite Hb. replace (- ez) with (- ep + (ep - ez)) by lia.
    rewrite pow2_split, Z.mul_assoc by lia.
    apply Z.mul_le_mono_nonneg_r; [|assumption].
    apply Z.lt_le_incl, pow2_pos; lia. }
  assert (Hpz : 0 < 2 ^ (- ez)) by (apply pow2_pos; lia).
  assert (HMlo : 100 * 2 ^ (- ez) <= Zpos M) by lia.
  assert (HMhi : Zpos M <= 5000 * 2 ^ (- ez)) by lia.
  pose proof (digits2_bounds M) as [Hlo Hhi].
  unfold binary_normalize, binary_round.
  set (d := Zpos (digits2_pos M)) in *.
  assert (Hd : 7 - ez <= d <= 13 - ez).
  { split.
    - enough (6 - ez < d) by lia. apply (pow2_digits_ge (Zpos M)); [assumption| |unfold d; lia].
      replace (6 - ez) with (6 + - ez) by lia. rewrite pow2_split by lia.
      change (2 ^ 6) with 64. lia.
    - apply (pow2_digits (Zpos M)); [assumption| |lia].
      replace (13 - ez) with (13 + - ez) by lia. rewrite pow2_split by lia.
      change (2 ^ 13) with 8192. lia. }
  rewrite fexp_normal by lia.
  rewrite shl_align_id by lia.
  set (g := ez + (d - 53)).
  assert (Hg : -46 <= g <= -40) by (unfold g; lia).
  assert (Hsplit : 2 ^ (- g) * 2 ^ (d - 53) = 2 ^ (- ez)).
  { rewrite <- pow2_split by lia. f_equal. unfold g. lia. }
  destruct (binary_round_aux_between M ez (100 * 2 ^ (- g)) (5000 * 2 ^ (- g)))
    as (m' & e' & Hr & Hm & Hcases); fold d; [lia|lia|lia| |].
  { rewrite <- !Z.mul_assoc, Hsplit. lia. }
  fold d in Hcases. fold g in Hcases. exists m', e'. split; [exact Hr|]. split; [exact Hm|].
  destruct Hcases as [[He HB]|(He & Hq & HB)].
  - rewrite He. split; [lia|exact HB].
  - assert (Hg' : g <= -41).
    { destruct (Z.eq_dec g (-40)) as [E|]; [|lia].
      rewrite E in HB. simpl in HB. lia. }
    rewrite He, Hq. split; [lia|].
    replace (- g) with (Z.succ (- (g + 1))) in HB by lia.
    rewrite Z.pow_succ_r in HB by lia.
    change (2 ^ 53) with (2 * 2 ^ 52) in HB. lia.
Qed.

Lemma div_core_cents (pk : positive) :
  let d1 := Zpos (digits2_pos pk) in
  let s := 60 - d1 in
  d1 <= 59 ->
  SFdiv_core_binary 53 1024 (Zpos pk) 0 100 0
  = ((Zpos pk * 2 ^ s) / 100, - s, new_location 100 ((Zpos pk * 2 ^ s) mod 100)).
Proof.
  intros d1 s Hd. unfold SFdiv_core_binary.
  change (Zdigits2 (Zpos pk)) with d1. change (Zdigits2 100) with 7.
  rewrite fexp_normal by lia.
  replace (Z.min (d1 + 0 - (7 + 0) - 53) (0 - 0)) with (- s) by (unfold s; lia).
  replace (0 - 0 - - s) with s by lia.
  assert (Hs : 0 < s) by (unfold s; lia).
  destruct s as [|ps|ps] eqn:Es; [lia| |lia].
  rewrite Z.shiftl_mul_pow2 by lia.
  unfold Z.div, Z.modulo. destruct (Z.div_eucl _ 100) as [q r]. reflexivity.
Qed.

Lemma new_location_100_exact (r : Z) : new_location 100 r = loc_Exact <-> r = 0.
Proof.
  change (new_location 100 r) with (new_location_even 100 r). unfold new_location_even.
  destruct (Z.eqb_spec r 0) as [->|Hr]; split; intros H;
    try reflexivity; try discriminate; congruence.
Qed.

(** The float nearest to [k / 100], for [k] cents between 100.00 and
    5000.00: it lies between 100 and 5000 and is within one unit of the last
    place of [k / 100]. *)
Lemma of_ratio_cents_spec (k : Z) :
  10000 <= k <= 500000 ->
  exists m e,
    Float.of_ratio false k 100 = S754_finite false m e
    /\ 2 ^ 52 <= Zpos m < 2 ^ 53
    /\ -46 <= e <= -40
    /\ 100 * 2 ^ (- e) <= Zpos m <= 5000 * 2 ^ (- e)
    /\ -100 <= 100 * Zpos m - k * 2 ^ (- e) <= 100.
Proof.
  intros Hk. destruct k as [|pk|pk]; [lia| |lia].
  unfold Float.of_ratio, Float.prec, Float.emax.
  pose proof (digits2_bounds pk) as [Hlo Hhi].
  set (d1 := Zpos (digits2_pos pk)) in *.
  assert (Hd1 : 14 <= d1 <= 19).
  { split.
    - enough (13 < d1) by lia.
      apply (pow2_digits_ge (Zpos pk)); [assumption|simpl; lia|unfold d1; lia].
    - apply (pow2_digits (Zpos pk)); [assumption|simpl; lia|lia]. }
  rewrite div_core_cents by (fold d1; lia). fold d1. cbv beta iota zeta.
  set (s := 60 - d1).
  assert (Hs : 41 <= s <= 46) by (unfold s; lia).
  set (m0 := Zpos pk * 2 ^ s).
  assert (Hm0 : 2 ^ 59 <= m0 < 2 ^ 60).
  { assert (E59 : 2 ^ 59 = 2 ^ (d1 - 1) * 2 ^ s)
      by (rewrite <- pow2_split by lia; f_equal; unfold s; lia).
    assert (E60 : 2 ^ 60 = 2 ^ d1 * 2 ^ s)
      by (rewrite <- pow2_split by lia; f_equal; unfold s; lia).
    assert (0 < 2 ^ s) by (apply pow2_pos; lia).
    rewrite E59, E60. unfold m0.
    split; [apply Z.mul_le_mono_nonneg_r; lia|apply Z.mul_lt_mono_pos_r; lia]. }
  pose proof (Z.div_mod m0 100 ltac:(lia)) as Hdm.
  pose proof (Z.mod_pos_bound m0 100 ltac:(lia)) as HR.
  pose proof (new_location_100_exact (m0 mod 100)) as Hloc.
  set (l := new_location 100 (m0 mod 100)) in *.
  set (Q := m0 / 100) in *. set (R := m0 mod 100) in *.
  assert (HQ : 2 ^ 52 <= Q < 2 ^ 54) by lia.
  destruct Q as [|pQ|pQ] eqn:EQ; [lia| |lia].
  pose proof (digits2_bounds pQ) as [HloQ HhiQ].
  set (dQ := Zpos (digits2_pos pQ)) in *.
  assert (HdQ : 53 <= dQ <= 54).
  { split.
    - enough (52 < dQ) by lia.
      apply (pow2_digits_ge (Zpos pQ)); [assumption|lia|unfold dQ; lia].
    - apply (pow2_digits (Zpos pQ)); [assumption|lia|lia]. }
  set (n := dQ - 53).
  set (P := 2 ^ (s - n)).
  assert (HP : 2 ^ 40 <= P) by (apply Z.pow_le_mono_r; unfold n; lia).
  assert (Hs2 : 2 ^ s = P * 2 ^ n)
    by (unfold P; rewrite <- pow2_split by (unfold n; lia); f_equal; lia).
  set (KP := Zpos pk * P).
  assert (HKP : 10000 * P <= KP <= 500000 * P) by (unfold KP; simpl in HP; nia).
  assert (Hm0' : m0 = KP * 2 ^ n) by (unfold m0, KP; rewrite Hs2; ring).
  assert (Hn : 2 ^ n = 1 \/ 2 ^ n = 2).
  { destruct (Z.eq_dec dQ 53) as [E|E].
    - left. unfold n. rewrite E. reflexivity.
    - right. unfold n. replace dQ with 54 by lia. reflexivity. }
  (* the bounds *)
  destruct (binary_round_aux_between_loc pQ (- s) (100 * P) (5000 * P) l)
    as (m1 & e1 & Hr1 & Hm1 & Hc1); fold dQ; fold n; [lia|lia|lia| | |].
  { destruct Hn as [E | E]; rewrite E in *; lia. }
  { intros Hl. assert (R <> 0) by tauto. destruct Hn as [E | E]; rewrite E in *; lia. }
  (* the distance to [k / 100] *)
  pose proof (Z.div_mod KP 100 ltac:(lia)) as Hdk.
  pose proof (Z.mod_pos_bound KP 100 ltac:(lia)) as HRk.
  set (A := KP / 100) in *. set (Rk := KP mod 100) in *. clearbody A Rk.
  destruct (binary_round_aux_between_loc pQ (- s) A (A + 1) l)
    as (m2 & e2 & Hr2 & Hm2 & Hc2); fold dQ; fold n; [lia|lia|lia| | |].
  { destruct Hn as [E | E]; rewrite E in *; lia. }
  { intros _. destruct Hn as [E | E]; rewrite E in *; lia. }
  fold dQ in Hc1, Hc2. fold n in Hc1, Hc2.
  rewrite Hr1 in Hr2. injection Hr2 as <- <-.
  exists m1, e1. split; [exact Hr1|]. split; [exact Hm1|].
  assert (Hn' : 0 <= n <= 1) by (unfold n; lia).
  destruct Hc1 as [[He HB]|(He & Hq & HB)]; destruct Hc2 as [[He' HB']|(He' & Hq' & HB')];
    try lia.
  - replace (- e1) with (s - n) by lia. fold P. fold KP. clearbody KP. lia.
  - assert (Hg : - s + n <= -41).
    { destruct (Z.leb_spec (- s + n) (-41)); [assumption|].
      assert (HP40 : P <= 2 ^ 40) by (apply Z.pow_le_mono_r; lia).
      clearbody KP P. lia. }
    assert (HP2 : P = 2 * 2 ^ (- e1)).
    { unfold P. replace (s - n) with (Z.succ (- e1)) by lia.
      apply Z.pow_succ_r. lia. }
    assert (HKP' : KP = 2 * (Zpos pk * 2 ^ (- e1))) by (unfold KP; rewrite HP2; ring).
    set (P' := 2 ^ (- e1)) in *. set (KP' := Zpos pk * P') in *.
    clearbody KP KP' P P'. lia.
Qed.

Lemma div_half_even_between (n d lo hi : Z) :
  0 < d -> lo * d <= n <= hi * d -> lo <= Float.div_half_even n d <= hi.
Proof.
  intros Hd [Hlo Hhi]. unfold Float.div_half_even.
  pose proof (Z.div_mod n d ltac:(lia)) as Hdm.
  pose proof (Z.mod_pos_bound n d Hd) as Hr.
  set (q := n / d) in *. set (r := n mod d) in *. clearbody q r.
  assert (lo <= q) by nia. assert (q <= hi) by nia.
  assert (q = hi -> r = 0) by (intros ->; nia).
  destruct (Z.compare_spec (2 * r) d); [destruct (Z.even q)| |]; lia.
Qed.

Lemma div_half_even_near (n d k : Z) :
  0 < d -> - d < 2 * (n - k * d) < d -> Float.div_half_even n d = k.
Proof.
  intros Hd Hnear. unfold Float.div_half_even.
  pose proof (Z.div_mod n d ltac:(lia)) as Hdm.
  pose proof (Z.mod_pos_bound n d Hd) as Hr.
  set (q := n / d) in *. set (r := n mod d) in *. clearbody q r.
  assert (Hq : q = k \/ q = k - 1) by nia.
  destruct Hq as [-> | ->]; destruct (Z.compare_spec (2 * r) d); try nia.
Qed.

Lemma of_Z_5000 : Float.of_Z 5000 = S754_finite false 5497558138880000 (-40).
Proof. vm_compute. reflexivity. Qed.

Lemma compare_cont_Z (p q : positive) : Pos.compare_cont Eq p q = (Zpos p ?= Zpos q).
Proof. reflexivity. Qed.

Lemma leb_100 (m : positive) (e : Z) :
  -46 <= e <= 0 -> 100 * 2 ^ (- e) <= Zpos m ->
  Float.leb (Float.of_Z 100) (S754_finite false m e) = true.
Proof.
  intros He Hm. rewrite of_Z_100. unfold Float.leb, SFleb, SFcompare.
  destruct (Z.compare_spec (-46) e) as [E|E|E]; [|reflexivity|lia].
  subst e. change (2 ^ (- -46)) with (2 ^ 46) in Hm.
  rewrite compare_cont_Z.
  destruct (Z.compare_spec 7036874417766400 (Zpos m)) as [E|E|E]; try reflexivity.
  lia.
Qed.

Lemma leb_5000 (m : positive) (e : Z) :
  e <= -40 -> Zpos m <= 5000 * 2 ^ (- e) ->
  Float.leb (S754_finite false m e) (Float.of_Z 5000) = true.
Proof.
  intros He Hm. rewrite of_Z_5000. unfold Float.leb, SFleb, SFcompare.
  destruct (Z.compare_spec e (-40)) as [E|E|E]; [|reflexivity|lia].
  subst e. change (2 ^ (- -40)) with (2 ^ 40) in Hm.
  rewrite compare_cont_Z.
  destruct (Z.compare_spec (Zpos m) 5497558138880000) as [E|E|E]; try reflexivity.
  lia.
Qed.

(** Rounding a float of [100, 5000] to two decimals gives the float
    nearest to a number of cents between 100.00 and 5000.00. *)
Lemma round_cents (m : positive) (e : Z) :
  -46 <= e <= -40 -> 100 * 2 ^ (- e) <= Zpos m <= 5000 * 2 ^ (- e) ->
  exists k, 10000 <= k <= 500000
            /\ Float.round (S754_finite false m e) 2 = Float.of_ratio false k 100.
Proof.
  intros He Hm. destruct e as [|p|sh]; [lia|lia|].
  change (- Zneg sh) with (Zpos sh) in Hm.
  unfold Float.round. change (10 ^ Z.of_N 2) with 100. cbv zeta.
  exists (Float.div_half_even (Zpos m * 100) (2 ^ Zpos sh)). split; [|reflexivity].
  apply div_half_even_between; [apply pow2_pos; lia|lia].
Qed.

(** Such a float is a fixed point of the rounding. *)
Lemma round_of_ratio_cents (k : Z) :
  10000 <= k <= 500000 ->
  Float.round (Float.of_ratio false k 100) 2 = Float.of_ratio false k 100.
Proof.
  intros Hk. destruct (of_ratio_cents_spec k Hk) as (m & e & Hr & Hm & He & Hb & Hnear).
  rewrite Hr. destruct e as [|p|sh]; [lia|lia|].
  change (- Zneg sh) with (Zpos sh) in *.
  unfold Float.round. change (10 ^ Z.of_N 2) with 100. cbv zeta.
  rewrite (div_half_even_near _ _ k); [exact Hr|apply pow2_pos; lia|].
  assert (2 ^ 40 <= 2 ^ Zpos sh) by (apply Z.pow_le_mono_r; lia).
  change (2 ^ 40) with 1099511627776 in *. lia.
Qed.

Lemma valid_amount_cents (k : Z) :
  10000 <= k <= 500000 -> valid_amount (Float.of_ratio false k 100).
Proof.
  intros Hk. split; [|split; [apply round_of_ratio_cents; exact Hk|exists k; reflexivity]].
  destruct (of_ratio_cents_spec k Hk) as (m & e & Hr & Hm & He & Hb & Hnear).
  rewrite Hr. split; [apply leb_100; lia|apply leb_5000; lia].
Qed.

(** Every amount the generator can draw: [round(uniform(100.0, 5000.0), 2)]
    for each of the [2^53] values of [random()]. *)
Lemma round_uniform_valid (j : Z) :
  0 <= j < 2 ^ 53 ->
  valid_amount (Float.round
               (Float.add (Float.of_Z 100)
                  (Float.mul (Float.sub (Float.of_Z 5000) (Float.of_Z 100))
                     (Float.ldexp j (-53)))) 2).
Proof.
  intros Hj. destruct (Z.eq_dec j 0) as [->|Hj0].
  - replace (Float.round _ 2) with (Float.of_ratio false 10000 100)
      by (vm_compute; reflexivity).
    apply valid_amount_cents. lia.
  - destruct (ldexp_53_spec j ltac:(lia)) as (mr & er & Er & Hmr & Her).
    destruct (mul_4900_spec mr er Hmr Her) as (mp & ep & Ep & Hmp & Hep & Hvp).
    destruct (add_100_spec mp ep Hmp Hep Hvp) as (m & e & Ea & Hm & He & Hv).
    destruct (round_cents m e He Hv) as (k & Hk & Ek).
    rewrite sub_5000_100, Er, Ep, of_Z_100, Ea, Ek.
    apply valid_amount_cents. exact Hk.
Qed.

End FloatFacts.

(** ** What the seeding adds *)

Section SeedingFacts.
Import Py Random Database Spec.

Lemma returns_and {A : Type} (m : M A) (g : rng) (P Q : A -> Prop) :
  returns m g P -> returns m g Q -> returns m g (fun a => P a /\ Q a).
Proof.
  intros (a & g1 & H1 & HP) (b & g2 & H2 & HQ).
  rewrite H1 in H2. injection H2 as <- <-.
  exists a, g1. auto.
Qed.

(** Seeding, with any property [Q] that the generated tuples are known to
    have. *)
Lemma init_database_seeds_with (Q : list Z -> list sale_params -> Prop)
      (now : datetime) (db : database) (g : rng) :
  (forall ids g', ids <> [] -> returns (generate_sales_data now ids) g' (Q ids)) ->
  seedable db = true ->
  returns (init_database now db) g
    (fun db' =>
       exists sales_data,
         table_rows (sales_people db')
         = inserted_rows person_of_params
             (next_rowid sp_id (create_table_if_not_exists (sales_people db)))
             sales_people_roster
         /\ table_rows (sales db')
            = table_rows (sales db)
              ++ inserted_rows sale_of_params
                   (next_rowid sale_id (create_table_if_not_exists (sales db)))
                   sales_data
         /\ Q (map sp_id (table_rows (sales_people db'))) sales_data).
Proof.
  intros HQ H. unfold seedable in H.
  apply andb_true_iff in H as [H Hsales]. apply andb_true_iff in H as [Hempty Hpeople].
  apply Z.leb_le in Hsales, Hpeople.
  unfold init_database. rewrite Hempty.
  apply Z.eqb_eq in Hempty.
  set (people := create_table_if_not_exists (sales_people db)) in *.
  set (sales_table := create_table_if_not_exists (sales db)) in *.
  assert (Hrows : rows people = []) by (destruct (rows people); [reflexivity|discriminate]).
  destruct (executemany_insert_sales_person sales_people_roster roster_emails_distinct people)
    as (people' & Hins & Hrows').
  { intros p r _ Hr. rewrite Hrows in Hr. destruct Hr. }
  { simpl List.length. lia. }
  rewrite Hrows, app_nil_l in Hrows'.
  apply (returns_bind _ _ _
           (fun t => rows t = inserted_rows person_of_params (next_rowid sp_id people)
                                sales_people_roster));
    [exact (returns_lift _ _ _ _ Hins Hrows')|].
  intros people1 g1 Hrows1.
  assert (Hne : map sp_id (rows people1) <> []) by (rewrite Hrows1; discriminate).
  eapply returns_bind.
  { apply returns_and.
    - exact (generate_sales_data_spec (fun _ => True) (fun _ _ => I) _ Hne now g1).
    - exact (HQ _ g1 Hne). }
  cbv beta. intros sales_data g2 ((_ & _ & Hlen) & HQsd).
  destruct (executemany_insert_sale sales_data sales_table) as (sales' & Hins' & Hsrows); [lia|].
  apply (returns_bind _ _ _
           (fun t => rows t = rows sales_table
                              ++ inserted_rows sale_of_params (next_rowid sale_id sales_table)
                                   sales_data));
    [exact (returns_lift _ _ _ _ Hins' Hsrows)|].
  intros sales1 g3 Hsrows1. apply returns_ret.
  exists sales_data. simpl sales_people. simpl sales. simpl table_rows.
  split; [exact Hrows1|]. split; [|exact HQsd].
  rewrite Hsrows1. unfold sales_table. now rewrite table_rows_create.
Qed.

(** A property of every tuple that [generate_sale] appends holds of all
    the generated tuples. *)
Lemma generate_sales_data_forall (P : sale_params -> Prop) (ids : list Z)
      (now : datetime) (g : rng) :
  (forall d sd g', returns (generate_sale ids d sd) g'
                     (fun sd' => exists p, sd' = sd ++ [p] /\ P p)) ->
  returns (generate_sales_data now ids) g (Forall P).
Proof.
  intros Hsale. unfold generate_sales_data.
  apply (returns_for_each (fun _ sd => Forall P sd)); [|constructor].
  intros _ day_offset _ sd g1 _ Hsd. unfold generate_day.
  destruct (randint 5 15 g1) as [[num_sales g2]|e|e] eqn:Hn.
  2,3: destruct (returns_randint 5 15 g1 ltac:(lia)) as (? & ? & E & _); congruence.
  eapply returns_bind; [exists num_sales, g2; split; [exact Hn|exact I]|].
  intros n g3 _.
  apply (returns_for_each (fun _ sd => Forall P sd)); [|exact Hsd].
  intros _ _ _ sd' g4 _ Hsd'.
  eapply returns_weaken; [apply Hsale|].
  intros sd'' (p & -> & Hp). apply Forall_app. split; [exact Hsd'|].
  constructor; [exact Hp|constructor].
Qed.

Lemma generate_sale_labels (ids : list Z) (d : datetime) (sd : list sale_params) (g : rng) :
  ids <> [] ->
  returns (generate_sale ids d sd) g
    (fun sd' => exists p, sd' = sd ++ [p]
                          /\ In (params_category p) product_categories
                          /\ In (params_customer p) customer_names).
Proof.
  intros Hne. unfold generate_sale.
  eapply returns_bind; [apply returns_choice, Hne|].
  intros person g1 _.
  eapply returns_bind; [apply returns_uniform|].
  intros u g2 _.
  eapply returns_bind; [apply returns_choice; discriminate|].
  intros category g3 Hcat.
  eapply returns_bind; [apply returns_choice; discriminate|].
  intros customer g4 Hcust.
  apply returns_ret. eexists. split; [reflexivity|]. split; [exact Hcat|exact Hcust].
Qed.

(** Between 5 and 15 tuples for each of the 90 days. *)
Lemma generate_sales_data_length (ids : list Z) (now : datetime) (g : rng) :
  ids <> [] ->
  returns (generate_sales_data now ids) g
    (fun sd => (450 <= List.length sd <= 1350)%nat).
Proof.
  intros Hne. unfold generate_sales_data.
  eapply returns_weaken.
  - apply (returns_for_each
             (fun (done : list Z) sd =>
                (5 * List.length done <= List.length sd <= 15 * List.length done)%nat)).
    + intros done x rest sd g1 _ Hsd.
      eapply returns_weaken;
        [exact (generate_day_spec (fun _ => True) (fun _ _ => I) ids Hne _ x sd g1)|].
      intros sd' (new & -> & Hn & _). rewrite !length_app. simpl. lia.
    + simpl. lia.
  - cbv beta. intros sd Hsd. rewrite range_length in Hsd.
    change (Z.to_nat 90) with 90%nat in Hsd. lia.
Qed.

Lemma consecutive_cons (n : Z) (k : nat) :
  consecutive n (S k) = n :: consecutive (n + 1) k.
Proof.
  unfold consecutive, range. rewrite !Nat2Z.id.
  change (List.seq 0 (S k)) with (0%nat :: List.seq 1 k).
  rewrite <- seq_shift. simpl map. rewrite !map_map. f_equal; [lia|].
  apply map_ext. intros i. lia.
Qed.

Lemma inserted_rows_ids {P R : Type} (id : R -> Z) (mk : P -> Z -> R) (ps : list P) (n : Z) :
  (forall p i, id (mk p i) = i) ->
  map id (inserted_rows mk n ps) = consecutive n (List.length ps).
Proof.
  intros Hid. revert n. induction ps as [|p ps IH]; intros n; [reflexivity|].
  simpl. now rewrite consecutive_cons, Hid, IH.
Qed.




Lemma inserted_people_tuples (ps : list sales_person_params) (n : Z) :
  map person_tuple (inserted_rows person_of_params n ps) = ps.
Proof.
  revert n. induction ps as [|p ps IH]; intros n; simpl; [reflexivity|].
  rewrite IH. now destruct p as [[[[name email] region] hire_date] quota].
Qed.

Lemma inserted_people_emails (ps : list sales_person_params) (n : Z) :
  map sp_email (inserted_rows person_of_params n ps) = map params_email ps.
Proof.
  revert n. induction ps as [|p ps IH]; intros n; simpl; [reflexivity|].
  rewrite IH. now destruct p as [[[[name email] region] hire_date] quota].
Qed.

End SeedingFacts.

(** ** init_database: the rows it adds *)

Section SeededRows.
Import Py Random Database Spec.

(** C4: every amount that [init_database] writes to [sales] lies in the
    closed interval [100.00, 5000.00] and is rounded to two decimals:
    rounding it again leaves it as it is, and it is the float nearest to a
    whole number of cents. *)
Theorem init_database_amounts (now : datetime) (db : database) (g : rng) :
  seedable db = true ->
  returns (init_database now db) g
    (fun db' =>
       exists generated,
         table_rows (sales db') = table_rows (sales db) ++ generated
         /\ Forall (fun s => valid_amount (amount s)) generated).
Proof.
  intros H.
  eapply returns_weaken;
    [exact (init_database_seeds valid_amount round_uniform_valid now db g H)|].
  intros db' (sales_data & _ & Hsales & Hall & _).
  eexists. split; [exact Hsales|].
  apply Forall_forall. intros s Hs. rewrite Forall_forall in Hall.
  destruct (Hall (sale_tuple s)) as (_ & Ha & _); [|exact Ha].
  rewrite <- (inserted_sales_tuples sales_data
                (next_rowid sale_id (create_table_if_not_exists (sales db)))).
  now apply in_map.
Qed.

Lemma init_database_amounts_witness :
  returns (init_database sample_now empty_database) sample_tape
    (fun db' =>
       exists generated,
         table_rows (sales db') = table_rows (sales empty_database) ++ generated
         /\ Forall (fun s => valid_amount (amount s)) generated).
Proof.
  apply (init_database_amounts sample_now empty_database sample_tape).
  reflexivity.
Defined.

(** X2: every row that [init_database] adds to [sales] has one of the six
    product categories and one of the twelve customer names. *)
Theorem init_database_labels (now : datetime) (db : database) (g : rng) :
  seedable db = true ->
  returns (init_database now db) g
    (fun db' =>
       exists generated,
         table_rows (sales db') = table_rows (sales db) ++ generated
         /\ Forall (fun s => In (product_category s) product_categories
                             /\ In (customer_name s) customer_names) generated).
Proof.
  intros H.
  eapply returns_weaken.
  - apply (init_database_seeds_with
             (fun _ => Forall (fun p => In (params_category p) product_categories
                                        /\ In (params_customer p) customer_names))
             now db g); [|exact H].
    intros ids g' Hne. apply generate_sales_data_forall.
    intros d sd g''. now apply generate_sale_labels.
  - intros db' (sales_data & _ & Hsales & Hall).
    eexists. split; [exact Hsales|].
    apply Forall_forall. intros s Hs. rewrite Forall_forall in Hall.
    apply (Hall (sale_tuple s)).
    rewrite <- (inserted_sales_tuples sales_data
                  (next_rowid sale_id (create_table_if_not_exists (sales db)))).
    now apply in_map.
Qed.

Lemma init_database_labels_witness :
  returns (init_database sample_now empty_database) sample_tape
    (fun db' =>
       exists generated,
         table_rows (sales db') = table_rows (sales empty_database) ++ generated
         /\ Forall (fun s => In (product_category s) product_categories
                             /\ In (customer_name s) customer_names) generated).
Proof.
  apply (init_database_labels sample_now empty_database sample_tape).
  reflexivity.
Defined.

(** X3: a seeding adds between 450 and 1350 rows to [sales] (5 to 15 for
    each of 90 days), after the rows that were there, which it keeps. *)
Theorem init_database_sales_count (now : datetime) (db : database) (g : rng) :
  seedable db = true ->
  returns (init_database now db) g
    (fun db' =>
       exists generated,
         table_rows (sales db') = table_rows (sales db) ++ generated
         /\ (450 <= List.length generated <= 1350)%nat).
Proof.
  intros H.
  eapply returns_weaken.
  - apply (init_database_seeds_with
             (fun _ sd => (450 <= List.length sd <= 1350)%nat) now db g); [|exact H].
    intros ids g' Hne. now apply generate_sales_data_length.
  - intros db' (sales_data & _ & Hsales & Hlen).
    eexists. split; [exact Hsales|]. now rewrite inserted_rows_length.
Qed.

Lemma init_database_sales_count_witness :
  returns (init_database sample_now empty_database) sample_tape
    (fun db' =>
       exists generated,
         table_rows (sales db') = table_rows (sales empty_database) ++ generated
         /\ (450 <= List.length generated <= 1350)%nat).
Proof.
  apply (init_database_sales_count sample_now empty_database sample_tape).
  reflexivity.
Defined.

(** X4: after a seeding [sales_people] holds the eight people of the
    roster, in order, with consecutive ids that start at the table's next
    rowid (1, 2, ..., 8 in a new file) and with pairwise distinct emails. *)
Theorem init_database_people (now : datetime) (db : database) (g : rng) :
  seedable db = true ->
  returns (init_database now db) g
    (fun db' =>
       let people := table_rows (sales_people db') in
       map person_tuple people = sales_people_roster
       /\ map sp_id people
          = consecutive (next_rowid sp_id (create_table_if_not_exists (sales_people db))) 8
       /\ NoDup (map sp_email people)
       /\ (sales_people db = None -> map sp_id people = [1; 2; 3; 4; 5; 6; 7; 8])).
Proof.
  intros H.
  eapply returns_weaken;
    [exact (init_database_seeds (fun _ => True) (fun _ _ => I) now db g H)|].
  intros db' (sales_data & Hpeople & _). cbv zeta. rewrite Hpeople.
  split; [apply inserted_people_tuples|].
  split; [exact (inserted_rows_ids sp_id person_of_params _ _ person_of_params_id)|].
  split.
  - rewrite inserted_people_emails. apply roster_emails_distinct.
  - intros ->. reflexivity.
Qed.

Lemma init_database_people_witness :
  returns (init_database sample_now empty_database) sample_tape
    (fun db' =>
       let people := table_rows (sales_people db') in
       map person_tuple people = sales_people_roster
       /\ map sp_id people
          = consecutive (next_rowid sp_id (create_table_if_not_exists (sales_people empty_database))) 8
       /\ NoDup (map sp_email people)
       /\ (sales_people empty_database = None -> map sp_id people = [1; 2; 3; 4; 5; 6; 7; 8])).
Proof.
  apply (init_database_people sample_now empty_database sample_tape).
  reflexivity.
Defined.



End SeededRows.

(** ** get_database_path: the shape of the result *)

Section DatabasePathFacts.
Import Py Database.

Lemma startswith_other (s p q : str) (c d : N) :
  startswith s (c :: p) = true -> c <> d -> startswith s (d :: q) = false.
Proof.
  destruct s as [|x s]; simpl; [discriminate|].
  intros H Hcd. apply andb_true_iff in H as [Hx _]. apply N.eqb_eq in Hx. subst x.
  destruct (N.eqb_spec c d); [contradiction|reflexivity].
Qed.

Lemma sqlite_path_rooted (url : str) :
  startswith url (lit "sqlite:///") = true ->
  startswith (get_database_path url) (lit "./") = true
  \/ startswith (get_database_path url) (lit "/") = true.
Proof.
  intros H. unfold get_database_path. rewrite H.
  set (path := replace url (lit "sqlite:///") []).
  destruct (startswith path (lit "./")) eqn:E1; [left; exact E1|].
  destruct (startswith path (lit "/")) eqn:E2; simpl negb; cbv iota.
  - right. exact E2.
  - left. apply startswith_app.
Qed.

(** X6: the path extracted from a [sqlite:///] URL always begins with [./]
    or with [/]: a relative path is made explicit, an absolute one is
    kept. *)
Theorem get_database_path_rooted (database_url : str) :
  startswith database_url (lit "sqlite:///") = true ->
  startswith (get_database_path database_url) (lit "./") = true
  \/ startswith (get_database_path database_url) (lit "/") = true.
Proof. apply sqlite_path_rooted. Qed.

Lemma get_database_path_rooted_witness :
  startswith (get_database_path (lit "sqlite:///sales.db")) (lit "./") = true
  \/ startswith (get_database_path (lit "sqlite:///sales.db")) (lit "/") = true.
Proof.
  apply (get_database_path_rooted (lit "sqlite:///sales.db")). reflexivity.
Defined.

(** X7: [get_database_path] is idempotent: its result is a path that it
    maps to itself, whatever the URL. *)
Theorem get_database_path_idempotent (database_url : str) :
  get_database_path (get_database_path database_url) = get_database_path database_url.
Proof.
  destruct (startswith database_url (lit "sqlite:///")) eqn:H.
  - assert (Hno : startswith (get_database_path database_url) (lit "sqlite:///") = false).
    { destruct (sqlite_path_rooted database_url H) as [E|E];
        apply (startswith_other _ _ _ _ _ E); discriminate. }
    set (r := get_database_path database_url) in *.
    unfold get_database_path. now rewrite Hno.
  - unfold get_database_path. rewrite H. now rewrite H.
Qed.

End DatabasePathFacts.

(** ** The query facade: edge cases *)

Section FacadeFacts.
Import Py Agent Main.






(** X8: unless the agent raises outside the [Exception] hierarchy or
    raises an exception whose [str(e)] fails, [query_database] returns
    normally: it calls [agent.invoke] once with the query as it is, and
    returns an envelope that has a boolean [success] and a [result]; a
    success envelope has [intermediate_steps] and no [error], a failure
    envelope has a string [error] and no [intermediate_steps]. *)
Theorem query_database_envelope (a : agent) (q : str) :
  (forall e, invoke a (agent_input q) <> RaiseBase e) ->
  (forall e, invoke a (agent_input q) = Raise e -> exists s, exc_str e = Str s) ->
  exists (d : dict) (ok : bool),
    query_database a q = (Return d, [ [(lit "input", VStr q)] ])
    /\ getitem d (lit "success") = Some (VBool ok)
    /\ getitem d (lit "result") <> None
    /\ if ok
       then getitem d (lit "intermediate_steps") <> None
            /\ getitem d (lit "error") = None
       else (exists s, getitem d (lit "error") = Some (VStr s))
            /\ getitem d (lit "intermediate_steps") = None.
Proof.
  intros Hbase Hstr. unfold query_database.
  change (agent_input q) with [(lit "input", VStr q)] in *.
  destruct (invoke a [(lit "input", VStr q)]) as [r|e|e]; [| |now elim (Hbase e)].
  - eexists _, true. split; [reflexivity|]. repeat split; discriminate.
  - destruct (Hstr e eq_refl) as [s Hs]. rewrite Hs.
    eexists _, false. split; [reflexivity|]. repeat split; try discriminate.
    eexists. reflexivity.
Qed.

Lemma query_database_envelope_witness :
  exists (d : dict) (ok : bool),
    query_database Spec.failing_agent (lit "  top region? ")
    = (Return d, [ [(lit "input", VStr (lit "  top region? "))] ])
    /\ getitem d (lit "success") = Some (VBool ok)
    /\ getitem d (lit "result") <> None
    /\ if ok
       then getitem d (lit "intermediate_steps") <> None
            /\ getitem d (lit "error") = None
       else (exists s, getitem d (lit "error") = Some (VStr s))
            /\ getitem d (lit "intermediate_steps") = None.
Proof.
  apply (query_database_envelope Spec.failing_agent (lit "  top region? ")).
  - intros e. discriminate.
  - intros e H. injection H as <-. eexists. reflexivity.
Defined.


(** X10: an [Exception] of the agent whose [str(e)] is a string is not
    an HTTP error: the handler answers a non-blank query with a response
    whose [success] is false, whose [error] is that string and whose other
    fields are null.  The exception that a failing [str(e)] raises leaves
    the handler instead. *)
Theorem execute_query_agent_failure (a : agent) (q : str) (e : exception) :
  invoke a (agent_input q) = Raise e ->
  truthy (strip q) = true ->
  match exc_str e with
  | Str text =>
      execute_query (Some a) {| query := q |}
      = (Respond {| success := false; result := None; error := Some text;
                    intermediate_steps := None |},
         [agent_input q])
  | StrRaise e' | StrRaiseBase e' =>
      execute_query (Some a) {| query := q |} = (Unhandled e', [agent_input q])
  end.
Proof.
  intros Hinv Hq. unfold execute_query. simpl query. rewrite Hq. simpl negb. cbv iota.
  unfold query_database. rewrite Hinv.
  destruct (exc_str e) as [text|e'|e']; reflexivity.
Qed.

Lemma execute_query_agent_failure_witness :
  execute_query (Some Spec.failing_agent) {| query := lit "How many sales today?" |}
  = (Respond {| success := false; result := None; error := Some (lit "connection refused");
                intermediate_steps := None |},
     [agent_input (lit "How many sales today?")]).
Proof.
  apply (execute_query_agent_failure Spec.failing_agent (lit "How many sales today?")
           {| exc_class := lit "RuntimeError"; exc_str := Str (lit "connection refused") |});
    reflexivity.
Defined.

(** X11: the default "No result returned" is for a missing [output] only:
    when the agent's mapping holds [output: None], the response has a null
    [result]; its steps are the empty list when the mapping has none. *)
Theorem execute_query_none_output (a : agent) (q : str) (r : dict) :
  invoke a (agent_input q) = Return r ->
  getitem r (lit "output") = Some VNone ->
  getitem r (lit "intermediate_steps") = None ->
  truthy (strip q) = true ->
  execute_query (Some a) {| query := q |}
  = (Respond {| success := true; result := None; error := None;
                intermediate_steps := Some [] |},
     [agent_input q]).
Proof.
  intros Hinv Hout Hsteps Hq.
  unfold execute_query. simpl query. rewrite Hq. simpl negb. cbv iota.
  unfold query_database. rewrite Hinv. unfold get. rewrite Hout, Hsteps. reflexivity.
Qed.

Lemma execute_query_none_output_witness :
  execute_query (Some Spec.null_agent) {| query := lit "How many sales today?" |}
  = (Respond {| success := true; result := None; error := None;
                intermediate_steps := Some [] |},
     [agent_input (lit "How many sales today?")]).
Proof.
  apply (execute_query_none_output Spec.null_agent (lit "How many sales today?")
           [ (lit "output", VNone) ]); reflexivity.
Defined.

(** X12: when the agent's [output] is a list (of content blocks, for
    one), a [bool], or an object that the validator does not read as a
    string, the handler does not answer: building the response raises a
    validation error on [result]. *)
Theorem execute_query_invalid_output (a : agent) (q : str) (r : dict) (v : value) :
  invoke a (agent_input q) = Return r ->
  getitem r (lit "output") = Some v ->
  (exists items, v = VList items)
  \/ (exists b, v = VBool b)
  \/ (exists repr is_true as_list, v = VObject repr is_true None as_list) ->
  truthy (strip q) = true ->
  execute_query (Some a) {| query := q |}
  = (Unhandled (ValidationError (lit "result")), [agent_input q]).
Proof.
  intros Hinv Hout Hv Hq.
  unfold execute_query. simpl query. rewrite Hq. simpl negb. cbv iota.
  unfold query_database. rewrite Hinv. unfold get. rewrite Hout.
  destruct Hv as [[items ->]|[[b ->]|(repr & is_true & as_list & ->)]]; reflexivity.
Qed.

Lemma execute_query_invalid_output_witness :
  execute_query (Some Spec.blocks_agent) {| query := lit "How many sales today?" |}
  = (Unhandled (ValidationError (lit "result")), [agent_input (lit "How many sales today?")]).
Proof.
  apply (execute_query_invalid_output Spec.blocks_agent (lit "How many sales today?")
           [ (lit "output", VList [VStr (lit "42 sales today")]) ]
           (VList [VStr (lit "42 sales today")]));
    try reflexivity.
  left. eexists. reflexivity.
Defined.

(** X13: the handler calls the agent at most once: exactly once, with the
    query as it was sent (surrounding whitespace included), when the
    service is initialized and the query is not blank, and not at all
    otherwise. *)
Theorem execute_query_calls (agent_executor : option agent) (request : QueryRequest) :
  snd (execute_query agent_executor request)
  = if agent_initialized agent_executor && truthy (strip (query request))
    then [ [(lit "input", VStr (query request))] ]
    else [].
Proof.
  unfold execute_query. destruct agent_executor as [a|]; [|reflexivity].
  simpl agent_initialized. simpl andb.
  destruct (truthy (strip (query request))); [|reflexivity].
  simpl negb. cbv iota. unfold query_database. reflexivity.
Qed.

Lemma optional_str_cases (field : str) (v : value) :
  (exists r, optional_str field v = Return r)
  \/ optional_str field v = Raise (ValidationError field).
Proof.
  destruct v as [|b|s|items|repr is_true [s|] as_list]; simpl;
    try (left; eexists; reflexivity); right; reflexivity.
Qed.

Lemma optional_list_cases (field : str) (v : value) :
  (exists r, optional_list field v = Return r)
  \/ optional_list field v = Raise (ValidationError field).
Proof.
  destruct v as [|b|s|items|repr is_true as_str [items|]]; simpl;
    try (left; eexists; reflexivity); right; reflexivity.
Qed.

(** X14: the handler's own lookups never fail.  A request to an
    initialized service ends in a response, in the 400 of a blank query, or
    in a validation error of the response model; the only other exceptions
    that leave the handler come from the agent: one it raises outside the
    [Exception] hierarchy, or the one that [str(e)] raises. *)
Theorem execute_query_outcomes (a : agent) (request : QueryRequest) :
  (exists r, fst (execute_query (Some a) request) = Respond r)
  \/ fst (execute_query (Some a) request) = HTTPException 400 (lit "Query cannot be empty")
  \/ (exists field, fst (execute_query (Some a) request) = Unhandled (ValidationError field))
  \/ (exists e, invoke a (agent_input (query request)) = RaiseBase e
                /\ fst (execute_query (Some a) request) = Unhandled e)
  \/ (exists e e', invoke a (agent_input (query request)) = Raise e
                   /\ (exc_str e = StrRaise e' \/ exc_str e = StrRaiseBase e')
                   /\ fst (execute_query (Some a) request) = Unhandled e').
Proof.
  unfold execute_query.
  destruct (truthy (strip (query request))); simpl negb; cbv iota;
    [|right; left; reflexivity].
  unfold query_database.
  destruct (invoke a (agent_input (query request))) as [r|e|e].
  - simpl fst. change (getitem _ (lit "success")) with (Some (VBool true)). cbv iota.
    simpl truth. cbv iota.
    set (result_v := get r (lit "output") (VStr (lit "No result returned"))).
    set (steps_v := get r (lit "intermediate_steps") (VList [])).
    change (getitem _ (lit "result")) with (Some result_v). cbv iota.
    change (get _ (lit "intermediate_steps") VNone) with steps_v.
    unfold success_response.
    destruct (optional_str_cases (lit "result") result_v) as [[r1 ->]| ->];
      [|right; right; left; eexists; reflexivity].
    destruct (optional_list_cases (lit "intermediate_steps") steps_v) as [[r2 ->]| ->];
      [left; eexists; reflexivity|right; right; left; eexists; reflexivity].
  - destruct (exc_str e) as [text|e'|e'] eqn:Hstr.
    + left. eexists. reflexivity.
    + right. right. right. right. exists e, e'. auto.
    + right. right. right. right. exists e, e'. auto.
  - right. right. right. left. exists e. auto.
Qed.


End FacadeFacts.

(** ** The settings: the key mask and the agent factory *)

Section SettingsFacts.
Import Py Agent Main.

(** X16: [debug_env] never shows more than the first ten characters of
    the API key: what it shows is either "NOT_SET" or these ten characters
    followed by "...", and then at least one character of the key is
    withheld. *)
Theorem debug_env_masks_key (settings : Config.Settings) (env : Config.environ) :
  let api_key :=
    Config.or_str (Config.openai_api_key settings)
      (Config.getenv_default env (lit "OPENAI_API_KEY") (lit "NOT_SET")) in
  let shown := openai_api_key_from_settings (debug_env settings env) in
  shown = lit "NOT_SET"
  \/ exists head hidden,
       api_key = head ++ hidden /\ List.length head = 10%nat /\ hidden <> []
       /\ shown = head ++ lit "...".
Proof.
  intros api_key shown. unfold shown, debug_env. fold api_key. simpl openai_api_key_from_settings.
  destruct (truthy api_key && negb (str_eqb api_key (lit "NOT_SET"))); simpl andb;
    [|left; reflexivity].
  destruct (Z.ltb_spec 10 (Z.of_nat (List.length api_key))) as [Hlen|Hlen];
    [|left; reflexivity].
  right. exists (firstn 10 api_key), (skipn 10 api_key).
  split; [symmetry; apply firstn_skipn|].
  split; [apply firstn_length_le; lia|].
  split; [|reflexivity].
  intros E. pose proof (length_skipn 10 api_key) as Hs. rewrite E in Hs. simpl in Hs. lia.
Qed.

(** X17: a key of at most ten characters is reported in two ways at once:
    [openai_api_key_set] is true and the settings flag is "SET", while the
    masked key reads "NOT_SET". *)
Theorem debug_env_short_key (settings : Config.Settings) (env : Config.environ) (key : str) :
  Config.openai_api_key settings = Some key ->
  key <> [] ->
  key <> lit "NOT_SET" ->
  (List.length key <= 10)%nat ->
  openai_api_key_from_settings (debug_env settings env) = lit "NOT_SET"
  /\ openai_api_key_set (debug_env settings env) = true
  /\ settings_openai_api_key (debug_env settings env) = lit "SET".
Proof.
  intros Hkey Hne Hns Hlen.
  assert (Ht : truthy key = true) by (destruct key; [now elim Hne|reflexivity]).
  assert (Hs : str_eqb key (lit "NOT_SET") = false).
  { destruct (str_eqb key (lit "NOT_SET")) eqn:E; [|reflexivity].
    apply str_eqb_eq in E. contradiction. }
  assert (Hk : Config.or_str (Config.openai_api_key settings)
                 (Config.getenv_default env (lit "OPENAI_API_KEY") (lit "NOT_SET")) = key)
    by (rewrite Hkey; simpl; now rewrite Ht).
  unfold debug_env. rewrite Hk. cbv zeta.
  simpl openai_api_key_from_settings. simpl openai_api_key_set.
  simpl settings_openai_api_key.
  rewrite Hkey. simpl Config.truthy_opt. rewrite Ht, Hs. simpl andb. simpl negb.
  destruct (Z.ltb_spec 10 (Z.of_nat (List.length key))) as [H|H]; [lia|].
  repeat split.
Qed.

Lemma debug_env_short_key_witness :
  openai_api_key_from_settings
    (debug_env {| Config.database_url := lit "sqlite:///./sales.db";
                  Config.llm_provider := lit "openai";
                  Config.openai_api_key := Some (lit "sk-short");
                  Config.openai_base_url := None;
                  Config.openai_model := lit "gpt-4o-mini";
                  Config.openai_temperature := Float.of_Z 0;
                  Config.api_host := lit "0.0.0.0";
                  Config.api_port := 8000;
                  Config.cors_origins := [] |} Spec.empty_environ)
  = lit "NOT_SET"
  /\ openai_api_key_set
       (debug_env {| Config.database_url := lit "sqlite:///./sales.db";
                     Config.llm_provider := lit "openai";
                     Config.openai_api_key := Some (lit "sk-short");
                     Config.openai_base_url := None;
                     Config.openai_model := lit "gpt-4o-mini";
                     Config.openai_temperature := Float.of_Z 0;
                     Config.api_host := lit "0.0.0.0";
                     Config.api_port := 8000;
                     Config.cors_origins := [] |} Spec.empty_environ)
     = true
  /\ settings_openai_api_key
       (debug_env {| Config.database_url := lit "sqlite:///./sales.db";
                     Config.llm_provider := lit "openai";
                     Config.openai_api_key := Some (lit "sk-short");
                     Config.openai_base_url := None;
                     Config.openai_model := lit "gpt-4o-mini";
                     Config.openai_temperature := Float.of_Z 0;
                     Config.api_host := lit "0.0.0.0";
                     Config.api_port := 8000;
                     Config.cors_origins := [] |} Spec.empty_environ)
     = lit "SET".
Proof.
  apply (debug_env_short_key _ Spec.empty_environ (lit "sk-short"));
    [reflexivity|discriminate|discriminate|simpl; lia].
Defined.

(** Without a key, in the settings and in the environment, the factory
    stops after opening the database. *)
Lemma create_sql_agent_executor_no_key (lc : langchain) (settings : Config.Settings)
      (env : Config.environ) (database_url : str) (db : value) :
  Config.truthy_opt (Config.openai_api_key settings) = false ->
  Config.truthy_opt (Config.getenv env (lit "OPENAI_API_KEY")) = false ->
  from_uri lc database_url = Return db ->
  create_sql_agent_executor lc settings env database_url
  = (Raise {| exc_class := lit "ValueError";
              exc_str := Str (lit "OPENAI_API_KEY not found! Please set it in your .env file or as an environment variable. Settings has key: False, Env var exists: False") |},
     [Call_from_uri database_url]).
Proof.
  intros Hs He Hdb. unfold create_sql_agent_executor. rewrite Hdb.
  unfold Config.or_opt, missing_api_key. rewrite Hs, He.
  destruct (Config.getenv env (lit "OPENAI_API_KEY")) as [k|]; [|reflexivity].
  simpl in He. rewrite He. reflexivity.
Qed.

(** X18: when neither the settings nor the environment hold a non-empty
    API key, [create_sql_agent_executor] raises its [ValueError] after
    opening the database and before building the model; the two flags of
    its message are then always False. *)
Theorem create_sql_agent_executor_missing_key (lc : langchain) (settings : Config.Settings)
      (env : Config.environ) (database_url : str) (db : value) :
  Config.truthy_opt (Config.openai_api_key settings) = false ->
  Config.truthy_opt (Config.getenv env (lit "OPENAI_API_KEY")) = false ->
  from_uri lc database_url = Return db ->
  create_sql_agent_executor lc settings env database_url
  = (Raise {| exc_class := lit "ValueError";
              exc_str := Str (lit "OPENAI_API_KEY not found! Please set it in your .env file or as an environment variable. Settings has key: False, Env var exists: False") |},
     [Call_from_uri database_url]).
Proof. apply create_sql_agent_executor_no_key. Qed.

Lemma create_sql_agent_executor_missing_key_witness :
  create_sql_agent_executor Spec.sample_langchain Config.defaults Spec.empty_environ
    (lit "sqlite:///./sales.db")
  = (Raise {| exc_class := lit "ValueError";
              exc_str := Str (lit "OPENAI_API_KEY not found! Please set it in your .env file or as an environment variable. Settings has key: False, Env var exists: False") |},
     [Call_from_uri (lit "sqlite:///./sales.db")]).
Proof.
  apply (create_sql_agent_executor_missing_key Spec.sample_langchain Config.defaults
           Spec.empty_environ (lit "sqlite:///./sales.db") (opaque (lit "SQLDatabase")));
    reflexivity.
Defined.

(** X19: a non-empty key in the settings takes precedence over the
    [OPENAI_API_KEY] of the environment: right after [from_uri], the model
    is built with the settings' key, model name and temperature, and with a
    base URL only when the settings hold a non-empty one. *)
Theorem create_sql_agent_executor_settings_key (lc : langchain) (settings : Config.Settings)
      (env : Config.environ) (database_url : str) (key : str) (db : value) :
  Config.openai_api_key settings = Some key ->
  key <> [] ->
  from_uri lc database_url = Return db ->
  exists rest,
    snd (create_sql_agent_executor lc settings env database_url)
    = Call_from_uri database_url
      :: Call_ChatOpenAI
           {| kw_model := Config.openai_model settings;
              kw_temperature := Config.openai_temperature settings;
              kw_api_key := key;
              kw_base_url :=
                match Config.openai_base_url settings with
                | Some [] | None => None
                | Some url => Some url
                end |}
      :: rest.
Proof.
  intros Hkey Hne Hdb.
  assert (Ht : truthy key = true) by (destruct key; [now elim Hne|reflexivity]).
  assert (Hbase : (if Config.truthy_opt (Config.openai_base_url settings)
                   then Config.openai_base_url settings else None)
                  = match Config.openai_base_url settings with
                    | Some [] | None => None
                    | Some url => Some url
                    end)
    by (destruct (Config.openai_base_url settings) as [[|c u]|]; reflexivity).
  assert (Hor : Config.or_opt (Config.openai_api_key settings)
                  (Config.getenv env (lit "OPENAI_API_KEY")) = Some key)
    by (unfold Config.or_opt; rewrite Hkey; simpl; now rewrite Ht).
  unfold create_sql_agent_executor. rewrite Hdb, Hor, Ht.
  simpl negb. cbv iota. rewrite Hbase.
  destruct (ChatOpenAI lc env _) as [llm|e|e]; [|eexists; reflexivity..].
  destruct (SQLDatabaseToolkit lc db llm) as [toolkit|e|e]; eexists; reflexivity.
Qed.

Lemma create_sql_agent_executor_settings_key_witness :
  exists rest,
    snd (create_sql_agent_executor Spec.sample_langchain Spec.sample_settings
           Spec.sample_environ (lit "sqlite:///./data/sales.db"))
    = Call_from_uri (lit "sqlite:///./data/sales.db")
      :: Call_ChatOpenAI
           {| kw_model := Config.openai_model Spec.sample_settings;
              kw_temperature := Config.openai_temperature Spec.sample_settings;
              kw_api_key := lit "sk-proj-0123456789abcdef";
              kw_base_url :=
                match Config.openai_base_url Spec.sample_settings with
                | Some [] | None => None
                | Some url => Some url
                end |}
      :: rest.
Proof.
  apply (create_sql_agent_executor_settings_key Spec.sample_langchain Spec.sample_settings
           Spec.sample_environ (lit "sqlite:///./data/sales.db")
           (lit "sk-proj-0123456789abcdef") (opaque (lit "SQLDatabase")));
    [reflexivity|discriminate|reflexivity].
Defined.

End SettingsFacts.

(** ** Startup *)

Section Startup.
Import Py Random Database Agent Main Spec.

(** A seeding, as startup needs it: the roster, and the generated rows
    after the rows that were there. *)
Lemma init_database_seeded (now : datetime) (db : database) (g : rng) :
  seedable db = true ->
  returns (init_database now db) g
    (fun db' =>
       map person_tuple (table_rows (sales_people db')) = sales_people_roster
       /\ exists generated,
            table_rows (sales db') = table_rows (sales db) ++ generated
            /\ (450 <= List.length generated <= 1350)%nat).
Proof.
  intros H.
  eapply returns_weaken.
  - apply (init_database_seeds_with
             (fun _ sd => (450 <= List.length sd <= 1350)%nat) now db g); [|exact H].
    intros ids g' Hne. now apply generate_sales_data_length.
  - intros db' (sales_data & Hpeople & Hsales & Hlen). split.
    + rewrite Hpeople. apply inserted_people_tuples.
    + eexists. split; [exact Hsales|]. now rewrite inserted_rows_length.
Qed.

(** X20: a startup without an API key fails only after the database has
    been seeded: the [ValueError] of the factory is raised again, the
    global agent keeps its value (so that queries are answered with 503
    when it was [None]), and the database committed to the file at
    [get_database_path(database_url)] holds the eight people of the roster
    and between 450 and 1350 new sales. *)
Theorem startup_event_missing_key (lc : langchain) (settings : Config.Settings)
      (env : Config.environ) (now : datetime) (connect : str -> outcome database)
      (current : option agent) (g : rng) (db : value) (found : database) :
  Config.truthy_opt (Config.openai_api_key settings) = false ->
  Config.truthy_opt (Config.getenv env (lit "OPENAI_API_KEY")) = false ->
  from_uri lc (Config.database_url settings) = Return db ->
  connect (get_database_path (Config.database_url settings)) = Return found ->
  seedable found = true ->
  returns (startup_event lc settings env now connect current) g
    (fun r =>
       raised r
       = Raise {| exc_class := lit "ValueError";
                  exc_str := Str (lit "OPENAI_API_KEY not found! Please set it in your .env file or as an environment variable. Settings has key: False, Env var exists: False") |}
       /\ agent_executor r = current
       /\ map person_tuple (table_rows (sales_people (database_file r))) = sales_people_roster
       /\ (exists generated,
             table_rows (sales (database_file r)) = table_rows (sales found) ++ generated
             /\ (450 <= List.length generated <= 1350)%nat)
       /\ (current = None ->
           forall request,
             fst (execute_query (agent_executor r) request)
             = HTTPException 503 (lit "Agent not initialized"))).
Proof.
  intros Hs He Hdb Hconnect Hseed. unfold startup_event.
  eapply returns_bind; [exact (returns_lift _ _ _ (fun f => f = found) Hconnect eq_refl)|].
  intros found' g0 ->.
  eapply returns_bind; [exact (init_database_seeded now found g0 Hseed)|].
  intros db' g' (Hpeople & Hsales).
  rewrite (create_sql_agent_executor_no_key lc settings env _ db Hs He Hdb).
  simpl fst. apply returns_ret. simpl.
  split; [reflexivity|]. split; [reflexivity|].
  split; [exact Hpeople|]. split; [exact Hsales|].
  intros -> request. reflexivity.
Qed.

Lemma startup_event_missing_key_witness :
  returns (startup_event sample_langchain Config.defaults empty_environ sample_now new_disk None)
    sample_tape
    (fun r =>
       raised r
       = Raise {| exc_class := lit "ValueError";
                  exc_str := Str (lit "OPENAI_API_KEY not found! Please set it in your .env file or as an environment variable. Settings has key: False, Env var exists: False") |}
       /\ agent_executor r = None
       /\ map person_tuple (table_rows (sales_people (database_file r))) = sales_people_roster
       /\ (exists generated,
             table_rows (sales (database_file r))
             = table_rows (sales empty_database) ++ generated
             /\ (450 <= List.length generated <= 1350)%nat)
       /\ (@None agent = None ->
           forall request,
             fst (execute_query (agent_executor r) request)
             = HTTPException 503 (lit "Agent not initialized"))).
Proof.
  apply (startup_event_missing_key sample_langchain Config.defaults empty_environ
           sample_now new_disk None sample_tape (opaque (lit "SQLDatabase")) empty_database);
    reflexivity.
Defined.



(** X22: a restart does not reseed: when the [sales_people] table found
    in the file already holds a row, startup draws no random number and
    commits the database it found, with a [sales] table created if there
    was none: the rows of both tables are as they were, whether the agent
    factory then succeeds or raises. *)
Theorem startup_event_keeps_data (lc : langchain) (settings : Config.Settings)
      (env : Config.environ) (now : datetime) (connect : str -> outcome database)
      (current : option agent) (g : rng) (found : database) :
  connect (get_database_path (Config.database_url settings)) = Return found ->
  table_rows (sales_people found) <> [] ->
  exists r,
    startup_event lc settings env now connect current g = Return (r, g)
    /\ database_file r
       = {| sales_people := sales_people found;
            sales := Some (create_table_if_not_exists (sales found)) |}
    /\ table_rows (sales_people (database_file r)) = table_rows (sales_people found)
    /\ table_rows (sales (database_file r)) = table_rows (sales found).
Proof.
  intros Hconnect Hrows. unfold startup_event, bind, lift. rewrite Hconnect.
  rewrite (init_database_skips now found g Hrows).
  destruct (fst (create_sql_agent_executor lc settings env (Config.database_url settings)))
    as [a|e|e];
    (eexists; split; [reflexivity|]; simpl database_file;
     split; [reflexivity|]; simpl sales_people; simpl sales;
     split; [reflexivity|now destruct (sales found)]).
Qed.

Lemma startup_event_keeps_data_witness :
  exists r,
    startup_event sample_langchain Config.defaults empty_environ sample_now seeded_disk None
      sample_tape
    = Return (r, sample_tape)
    /\ database_file r
       = {| sales_people := sales_people sample_seeded;
            sales := Some (create_table_if_not_exists (sales sample_seeded)) |}
    /\ table_rows (sales_people (database_file r)) = table_rows (sales_people sample_seeded)
    /\ table_rows (sales (database_file r)) = table_rows (sales sample_seeded).
Proof.
  apply (startup_event_keeps_data sample_langchain Config.defaults empty_environ sample_now
           seeded_disk None sample_tape sample_seeded).
  - reflexivity.
  - discriminate.
Defined.

End Startup.
